(** * UPI VPA Generator Pro: the generation pipeline of [app.py]

    A shallow embedding of the pure core of [app.py] (the validator
    [validate_phone_number], the combinator [generate_vpas], the
    post-processing and history bookkeeping of the "Generate VPAs" button
    handler and the JSON export) together with the properties of the
    specification that concern them, followed by the rest of the script
    that is plain Python: the handles and the custom handles of the
    sidebar, the history tab, the three ways of reading phone numbers, the
    validation summary, the table view and the text download.  The pandas
    frames (search filters, CSV and Excel downloads) are left out.

    Python strings are sequences of Unicode code points; they are modelled as
    lists of code points ([N]), so that [len], [strip], [isdigit], [replace]
    and [split] act on the same units as in the program. *)

From Stdlib Require Import NArith ZArith Ascii String List Lia Bool.
From Stdlib Require Import DecimalFacts DecimalPos DecimalN ZifyBool.
From stdpp Require Import base list gmap sets sorting.
From Equations Require Import Equations.

Local Open Scope N_scope.
Local Open Scope list_scope.

(** ** Python strings *)

Module PyStr.

(** A code point. *)
Definition char := N.

(** A [str] value. *)
Definition str := list char.

(** An ASCII literal as a [str]. *)
Definition u (s : string) : str :=
  map N_of_ascii (list_ascii_of_string s).

(** [len(s)] *)
Definition len (s : str) : nat := length s.

Definition in_range (lo hi c : N) : bool := (lo <=? c) && (c <=? hi).

(** [c.isspace()] for a single character: CPython's [Py_UNICODE_ISSPACE]
    (the ASCII table for [c < 128], [_PyUnicode_IsWhitespace] otherwise). *)
Definition isspace_char (c : char) : bool :=
  in_range 0x09 0x0D c || in_range 0x1C 0x1F c || (c =? 0x20)
  || (c =? 0x85) || (c =? 0xA0) || (c =? 0x1680)
  || in_range 0x2000 0x200A c || (c =? 0x2028) || (c =? 0x2029)
  || (c =? 0x202F) || (c =? 0x205F) || (c =? 0x3000).

(** The blocks of decimal digits (Unicode 14.0, [Numeric_Type=Decimal]):
    each entry is the code point of the digit zero of a block of ten. *)
Definition decimal_zeros : list N :=
  [
    0x0030; 0x0660; 0x06F0; 0x07C0; 0x0966; 0x09E6; 0x0A66; 0x0AE6;
    0x0B66; 0x0BE6; 0x0C66; 0x0CE6; 0x0D66; 0x0DE6; 0x0E50; 0x0ED0;
    0x0F20; 0x1040; 0x1090; 0x17E0; 0x1810; 0x1946; 0x19D0; 0x1A80;
    0x1A90; 0x1B50; 0x1BB0; 0x1C40; 0x1C50; 0xA620; 0xA8D0; 0xA900;
    0xA9D0; 0xA9F0; 0xAA50; 0xABF0; 0xFF10; 0x104A0; 0x10D30; 0x11066;
    0x110F0; 0x11136; 0x111D0; 0x112F0; 0x11450; 0x114D0; 0x11650; 0x116C0;
    0x11730; 0x118E0; 0x11950; 0x11C50; 0x11D50; 0x11DA0; 0x16A60; 0x16AC0;
    0x16B50; 0x1D7CE; 0x1D7D8; 0x1D7E2; 0x1D7EC; 0x1D7F6; 0x1E140; 0x1E2F0;
    0x1E950; 0x1FBF0 ].

(** The other digits ([Numeric_Type=Digit]): superscripts, subscripts,
    circled and parenthesized digits and the like, as inclusive ranges. *)
Definition other_digit_ranges : list (N * N) :=
  [
    (0x00B2, 0x00B3); (0x00B9, 0x00B9); (0x1369, 0x1371); (0x19DA, 0x19DA);
    (0x2070, 0x2070); (0x2074, 0x2079); (0x2080, 0x2089); (0x2460, 0x2468);
    (0x2474, 0x247C); (0x2488, 0x2490); (0x24EA, 0x24EA); (0x24F5, 0x24FD);
    (0x24FF, 0x24FF); (0x2776, 0x277E); (0x2780, 0x2788); (0x278A, 0x2792);
    (0x10A40, 0x10A43); (0x10E60, 0x10E68); (0x11052, 0x1105A); (0x1F100, 0x1F10A) ].

(** [c.isdigit()] for a single character: Python accepts every character
    whose Unicode numeric type is Decimal or Digit, not only ['0'..'9'].
    The tables are those of the Unicode Character Database 14.0, the one of
    CPython 3.11. *)
Definition isdigit_char (c : char) : bool :=
  existsb (fun z => in_range z (z + 9) c) decimal_zeros
  || existsb (fun r => in_range (fst r) (snd r) c) other_digit_ranges.

(** [s.isdigit()]: every character is a digit and there is at least one. *)
Definition isdigit (s : str) : bool :=
  match s with
  | [] => false
  | _ => forallb isdigit_char s
  end.

(** [s.lstrip()] *)
Fixpoint lstrip (s : str) : str :=
  match s with
  | [] => []
  | c :: s' => if isspace_char c then lstrip s' else s
  end.

(** [s.rstrip()] *)
Fixpoint rstrip (s : str) : str :=
  match s with
  | [] => []
  | c :: s' =>
      match rstrip s' with
      | [] => if isspace_char c then [] else [c]
      | r => c :: r
      end
  end.

(** [s.strip()] *)
Definition strip (s : str) : str := rstrip (lstrip s).

(** [s.startswith(p)] *)
Fixpoint startswith (p s : str) : bool :=
  match p, s with
  | [], _ => true
  | _ :: _, [] => false
  | a :: p', c :: s' => (a =? c) && startswith p' s'
  end.

(** [s.replace(old, new)]: the occurrences of [old] are found from left to
    right and do not overlap; the text put in place of one is not searched
    again.  With an empty [old], [new] is put before every character and at
    the end. *)
Equations? replace (old new s : str) : str by wf (length s) lt :=
  replace [] new s := new ++ flat_map (fun c => c :: new) s;
  replace (o :: old') new [] := [];
  replace (o :: old') new (c :: s') :=
    if startswith (o :: old') (c :: s')
    then new ++ replace (o :: old') new (drop (length old') s')
    else c :: replace (o :: old') new s'.
Proof. all: rewrite ?length_drop; simpl; lia. Qed.

(** [c in s] for a single character [c]. *)
Definition contains (c : char) (s : str) : bool := existsb (N.eqb c) s.

(** [s.split(sep)] for a separator of one character: the pieces between the
    occurrences of [sep], empty pieces included; there is always at least
    one piece. *)
Fixpoint split (sep : char) (s : str) : list str :=
  match s with
  | [] => [[]]
  | c :: s' =>
      if c =? sep then [] :: split sep s'
      else match split sep s' with
           | p :: ps => (c :: p) :: ps
           | [] => [[c]]
           end
  end.

(** [a < b] on strings: lexicographic on code points. *)
Fixpoint ltb (a b : str) : bool :=
  match a, b with
  | _, [] => false
  | [], _ :: _ => true
  | x :: a', y :: b' => (x <? y) || ((x =? y) && ltb a' b')
  end.

(** Truth value of a string in a condition: non-empty. *)
Definition truthy (s : str) : bool :=
  match s with [] => false | _ :: _ => true end.

(** ['@'] *)
Definition at_sign : char := 64.


End PyStr.

Import PyStr.

(** ** The validator *)

(** [validate_phone_number]: [number = str(number).strip()] and then
    [len(number) == 10 and number.isdigit()]. *)
Definition validate_phone_number (number : str) : bool :=
  let number := strip number in
  (len number =? 10)%nat && isdigit number.

(** ** The combinator *)

Definition NUMBER : str := u "{number}".
Definition HANDLE : str := u "{handle}".

(** The body of the inner loop of [generate_vpas]: the identifier of one
    number and one handle.  [if custom_format:] is false for [None] and for
    the empty string. *)
Definition format_vpa (custom_format : option str) (number handle : str) : str :=
  match custom_format with
  | Some fmt =>
      if truthy fmt
      then replace HANDLE handle (replace NUMBER number fmt)
      else number ++ at_sign :: handle
  | None => number ++ at_sign :: handle
  end.

(** [generate_vpas]: the two nested loops, appending to [vpas]. *)
Definition generate_vpas (phone_numbers selected_handles : list str)
    (custom_format : option str) : list str :=
  fold_left
    (fun vpas number =>
       if validate_phone_number number
       then fold_left
              (fun vpas handle => vpas ++ [format_vpa custom_format number handle])
              selected_handles vpas
       else vpas)
    phone_numbers [].

(** ** Sorting *)

Section StableSort.
Context {A K : Type} (lt : K -> K -> bool).

(** Insertion of a keyed element coming from the left of all elements of
    the sorted list: it goes before the first element whose key is not
    smaller than its own. *)
Fixpoint insert_keyed (x : K * A) (l : list (K * A)) : list (K * A) :=
  match l with
  | [] => [x]
  | y :: l' => if lt (fst y) (fst x) then y :: insert_keyed x l' else x :: l
  end.

Definition sort_keyed (l : list (K * A)) : list (K * A) :=
  foldr insert_keyed [] l.

(** [l.sort(key=key)]: the keys are computed first, one call per element
    (an exception raised by [key] aborts the sort: [None]); the sort is
    ascending, compares keys with [<] only, and is stable. *)
Definition list_sort (key : A -> option K) (l : list A) : option (list A) :=
  ks ← mapM key l; Some (sort_keyed (zip ks l)).*2.

(** Keys in ascending order: no later key is smaller than an earlier one. *)
Definition ascending : list (K * A) -> Prop :=
  StronglySorted (fun p q => lt (fst q) (fst p) = false).
End StableSort.

(** [lambda x: x.split('@')[0]] *)
Definition number_key (x : str) : option str := split at_sign x !! 0%nat.

(** [lambda x: x.split('@')[1] if '@' in x else x] *)
Definition handle_key (x : str) : option str :=
  if contains at_sign x then split at_sign x !! 1%nat else Some x.

(** ** The session and the "Generate VPAs" button *)

(** One entry of the history, as built by [save_to_history]. *)
Record GenerationRecord := {
  timestamp : str;
  phone_count : nat;
  handle_count : nat;
  vpas_count : nat
}.

(** [st.session_state]; the key ['valid_numbers'] is absent until the first
    generation. *)
Record session_state := {
  custom_handles : list str;
  vpas : list str;
  valid_numbers : option (list str);
  history : list GenerationRecord
}.

Inductive sort_option := NoSorting | ByPhoneNumber | ByHandle | Alphabetically.

(** The arguments of [st.error]. *)
Inductive error_message :=
| PleaseEnterPhoneNumber      (* "Please enter at least one phone number" *)
| PleaseSelectHandle.         (* "Please select at least one UPI handle" *)

(** What the script has read from the widgets when the button is pressed;
    [now] is [datetime.now().strftime("%Y-%m-%d %H:%M:%S")]. *)
Record inputs := {
  phone_numbers : list str;
  selected_handles : list str;
  custom_format : option str;
  add_prefix : str;
  add_suffix : str;
  remove_duplicates : bool;
  sort_choice : sort_option;
  now : str
}.

(** [save_to_history] *)
Definition save_to_history (now : str) (phone_numbers handles : list str)
    (vpas_count : nat) (st : session_state) : session_state :=
  {| custom_handles := custom_handles st;
     vpas := vpas st;
     valid_numbers := valid_numbers st;
     history := history st ++
       [ {| timestamp := now;
            phone_count := length phone_numbers;
            handle_count := length handles;
            vpas_count := vpas_count |} ] |}.

(** [list(set(vpas))]: the distinct elements, in the order in which the set
    iterates, which Python leaves unspecified. *)
Definition list_set (l : list str) : list str :=
  elements (list_to_set l : gset str).

(** The sort step of the handler. *)
Definition sort_vpas (o : sort_option) (l : list str) : option (list str) :=
  match o with
  | NoSorting => Some l
  | ByPhoneNumber => list_sort ltb number_key l
  | ByHandle => list_sort ltb handle_key l
  | Alphabetically => list_sort ltb Some l
  end.

(** The numbers handed to [generate_vpas]: the valid ones, decorated. *)
Definition decorated_numbers (i : inputs) : list str :=
  let valid := filter (fun num => validate_phone_number num = true) (phone_numbers i) in
  let valid := if truthy (add_prefix i) then map (fun num => add_prefix i ++ num) valid else valid in
  if truthy (add_suffix i) then map (fun num => num ++ add_suffix i) valid else valid.

(** The body of [if st.button("Generate VPAs")].  The result is [None] when
    an exception escapes; otherwise the new session state and the errors
    shown. *)
Definition on_generate (i : inputs) (st : session_state)
    : option (session_state * list error_message) :=
  match phone_numbers i, selected_handles i with
  | [], _ => Some (st, [PleaseEnterPhoneNumber])
  | _ :: _, [] => Some (st, [PleaseSelectHandle])
  | _ :: _, _ :: _ =>
      let valid := decorated_numbers i in
      let vs := generate_vpas valid (selected_handles i) (custom_format i) in
      let vs := if remove_duplicates i then list_set vs else vs in
      vs ← sort_vpas (sort_choice i) vs;
      let st := {| custom_handles := custom_handles st;
                   vpas := vs;
                   valid_numbers :=
                     Some (map (fun num => replace (add_suffix i) []
                                             (replace (add_prefix i) [] num)) valid);
                   history := history st |} in
      Some (save_to_history (now i) valid (selected_handles i) (length vs) st, [])
  end.

Definition empty_session : session_state :=
  {| custom_handles := []; vpas := []; valid_numbers := None; history := [] |}.

(** ** Templates, as the specification words them *)

(** [p in s]: [p] occurs somewhere in [s]. *)
Fixpoint occurs (p s : str) : bool :=
  startswith p s || match s with [] => false | _ :: s' => occurs p s' end.

(** The template with every occurrence of [{number}] replaced by the number
    and every occurrence of [{handle}] replaced by the handle, in one pass
    from left to right over the template: the text put in is not looked at
    again. *)
Equations? substitute (fmt number handle : str) : str by wf (length fmt) lt :=
  substitute [] number handle := [];
  substitute (c :: s') number handle :=
    if startswith NUMBER (c :: s')
    then number ++ substitute (drop (length NUMBER) (c :: s')) number handle
    else if startswith HANDLE (c :: s')
    then handle ++ substitute (drop (length HANDLE) (c :: s')) number handle
    else c :: substitute s' number handle.
Proof. all: rewrite ?length_drop; simpl; lia. Qed.

(** ** The handle part, as the specification words it *)

(** What follows the first occurrence of [sep], if there is one. *)
Fixpoint after_first (sep : char) (s : str) : option str :=
  match s with
  | [] => None
  | c :: s' => if c =? sep then Some s' else after_first sep s'
  end.

(** The key of the sort by handle in the specification: the whole substring
    after the first ['@'], or the whole string when it has no ['@']. *)
Definition handle_part (x : str) : str := default x (after_first at_sign x).

(** ** The JSON export *)

(** The fragment of Python's [json] module that the export uses and that
    reading the document back needs: [json.dumps(obj, indent=2)] with the
    default [ensure_ascii=True], and [json.loads].  Floats are left out. *)
Module Json.

(** A Python value that [json] handles: [None], a [bool], an [int], a [str],
    a [list], or a [dict] with string keys, as the list of its items in
    insertion order. *)
#[warnings="-register-all"]
Inductive value :=
| Null
| Bool (b : bool)
| Int (z : Z)
| Str (s : str)
| List (l : list value)
| Dict (items : list (str * value)).

(** [d[key]] on the items of a dict built by successive assignments: the
    item assigned last. *)
Fixpoint getitem (key : str) (items : list (str * value)) : option value :=
  match items with
  | [] => None
  | (k, v) :: items' =>
      match getitem key items' with
      | Some v' => Some v'
      | None => if decide (k = key) then Some v else None
      end
  end.

Definition quote : char := 34.
Definition backslash : char := 92.

(** *** Encoding *)

Definition hexdigit (d : N) : char := if d <? 10 then 48 + d else 87 + d.

(** ['{0:04x}'.format(n)], for [n < 0x10000]. *)
Definition hex4 (n : N) : str :=
  [ hexdigit (n / 4096 mod 16); hexdigit (n / 256 mod 16);
    hexdigit (n / 16 mod 16); hexdigit (n mod 16) ].

(** The replacement of one character in [py_encode_basestring_ascii]:
    the quote, the backslash and the characters outside [' '..'~'] are
    escaped, with a surrogate pair beyond the Basic Multilingual Plane. *)
Definition escape_char (c : char) : str :=
  if c =? quote then [backslash; quote]
  else if c =? backslash then [backslash; backslash]
  else if c =? 10 then backslash :: u "n"
  else if c =? 13 then backslash :: u "r"
  else if c =? 9 then backslash :: u "t"
  else if c =? 8 then backslash :: u "b"
  else if c =? 12 then backslash :: u "f"
  else if in_range 0x20 0x7E c then [c]
  else if c <? 0x10000 then backslash :: u "u" ++ hex4 c
  else
    let n := c - 0x10000 in
    let s1 := N.lor 0xd800 (N.land (N.shiftr n 10) 0x3ff) in
    let s2 := N.lor 0xdc00 (N.land n 0x3ff) in
    backslash :: u "u" ++ hex4 s1 ++ backslash :: u "u" ++ hex4 s2.

(** [encode_basestring_ascii(s)] *)
Definition encode_basestring_ascii (s : str) : str :=
  quote :: flat_map escape_char s ++ [quote].

Fixpoint digits (d : Decimal.uint) : str :=
  match d with
  | Decimal.Nil => []
  | Decimal.D0 d => 48 :: digits d
  | Decimal.D1 d => 49 :: digits d
  | Decimal.D2 d => 50 :: digits d
  | Decimal.D3 d => 51 :: digits d
  | Decimal.D4 d => 52 :: digits d
  | Decimal.D5 d => 53 :: digits d
  | Decimal.D6 d => 54 :: digits d
  | Decimal.D7 d => 55 :: digits d
  | Decimal.D8 d => 56 :: digits d
  | Decimal.D9 d => 57 :: digits d
  end.

(** [int.__repr__] *)
Definition repr_int (z : Z) : str :=
  match z with
  | Z0 => u "0"
  | Zpos p => digits (Pos.to_uint p)
  | Zneg p => 45 :: digits (Pos.to_uint p)
  end.

(** [sep.join(l)] *)
Fixpoint join (sep : str) (l : list str) : str :=
  match l with
  | [] => []
  | [x] => x
  | x :: l' => x ++ sep ++ join sep l'
  end.

(** ['\n' + ' ' * (2 * level)]: the line break before an item at nesting
    depth [level], for [indent=2]. *)
Definition newline_indent (level : nat) : str := 10 :: repeat 32 (2 * level).

(** [_iterencode] with [indent=2]: the item separator is [","] followed by
    the line break, the key separator [": "]; empty containers are written
    [[]] and [{}]. *)
Fixpoint iterencode (level : nat) (o : value) : str :=
  match o with
  | Null => u "null"
  | Bool true => u "true"
  | Bool false => u "false"
  | Int z => repr_int z
  | Str s => encode_basestring_ascii s
  | List [] => u "[]"
  | List l =>
      u "[" ++ newline_indent (S level)
      ++ join (u "," ++ newline_indent (S level)) (map (iterencode (S level)) l)
      ++ newline_indent level ++ u "]"
  | Dict [] => u "{}"
  | Dict items =>
      u "{" ++ newline_indent (S level)
      ++ join (u "," ++ newline_indent (S level))
           (map (fun kv => encode_basestring_ascii (fst kv) ++ u ": "
                           ++ iterencode (S level) (snd kv)) items)
      ++ newline_indent level ++ u "}"
  end.

(** [json.dumps(obj, indent=2)] *)
Definition dumps (obj : value) : str := iterencode 0 obj.

(** *** Decoding *)

Definition hexval (c : char) : option N :=
  if in_range 48 57 c then Some (c - 48)
  else if in_range 97 102 c then Some (c - 87)
  else if in_range 65 70 c then Some (c - 55)
  else None.

(** The four hexadecimal digits of a [\uXXXX] escape. *)
Definition decode_uXXXX (s : str) : option N :=
  match s with
  | [a; b; c; d] =>
      a ← hexval a; b ← hexval b; c ← hexval c; d ← hexval d;
      Some (((a * 16 + b) * 16 + c) * 16 + d)
  | _ => None
  end.

(** The table [BACKSLASH] of the escapes of one character. *)
Definition unescape (esc : char) : option char :=
  if esc =? quote then Some quote
  else if esc =? backslash then Some backslash
  else if esc =? 47 then Some 47
  else if esc =? 98 then Some 8
  else if esc =? 102 then Some 12
  else if esc =? 110 then Some 10
  else if esc =? 114 then Some 13
  else if esc =? 116 then Some 9
  else None.

Definition is_high_surrogate (c : N) : bool := in_range 0xd800 0xdbff c.
Definition is_low_surrogate (c : N) : bool := in_range 0xdc00 0xdfff c.

Definition push (c : char) (r : option (str * str)) : option (str * str) :=
  match r with
  | Some (x, rest) => Some (c :: x, rest)
  | None => None
  end.

(** [scanstring], strict, called after the opening quote: the decoded
    string and what follows its closing quote; [None] stands for a
    [JSONDecodeError].  A [\uXXXX] escape for a high surrogate directly
    followed by one for a low surrogate is decoded as one character. *)
Equations? scanstring (s : str) : option (str * str) by wf (length s) lt :=
  scanstring [] := None;
  scanstring [c] := if c =? quote then Some ([], []) else None;
  scanstring (c :: esc :: r) :=
    if c =? quote then Some ([], esc :: r)
    else if c =? backslash then
      if esc =? 117 then
        match decode_uXXXX (take 4 r) with
        | None => None
        | Some uni =>
            if is_high_surrogate uni && startswith (backslash :: u "u") (drop 4 r)
            then
              match decode_uXXXX (take 4 (drop 6 r)) with
              | None => None
              | Some uni2 =>
                  if is_low_surrogate uni2
                  then push (0x10000 + N.lor (N.shiftl (uni - 0xd800) 10) (uni2 - 0xdc00))
                         (scanstring (drop 10 r))
                  else push uni (scanstring (drop 4 r))
              end
            else push uni (scanstring (drop 4 r))
        end
      else
        match unescape esc with
        | Some ch => push ch (scanstring r)
        | None => None
        end
    else if c <? 0x20 then None
    else push c (scanstring (esc :: r)).
Proof. all: rewrite ?length_drop; simpl; lia. Qed.

(** The whitespace [" \t\n\r"] skipped between tokens. *)
Definition is_ws (c : char) : bool :=
  (c =? 32) || (c =? 9) || (c =? 10) || (c =? 13).

Fixpoint skip_ws (s : str) : str :=
  match s with
  | [] => []
  | c :: s' => if is_ws c then skip_ws s' else s
  end.

Definition digit_of (c : char) (d : Decimal.uint) : option Decimal.uint :=
  if c =? 48 then Some (Decimal.D0 d) else
  if c =? 49 then Some (Decimal.D1 d) else
  if c =? 50 then Some (Decimal.D2 d) else
  if c =? 51 then Some (Decimal.D3 d) else
  if c =? 52 then Some (Decimal.D4 d) else
  if c =? 53 then Some (Decimal.D5 d) else
  if c =? 54 then Some (Decimal.D6 d) else
  if c =? 55 then Some (Decimal.D7 d) else
  if c =? 56 then Some (Decimal.D8 d) else
  if c =? 57 then Some (Decimal.D9 d) else None.

(** The longest run of decimal digits at the head of [s] and the rest. *)
Fixpoint scan_digits (s : str) : Decimal.uint * str :=
  match s with
  | [] => (Decimal.Nil, [])
  | c :: s' =>
      let '(d, rest) := scan_digits s' in
      match digit_of c d with
      | Some d' => (d', rest)
      | None => (Decimal.Nil, s)
      end
  end.

(** The integer part of [NUMBER_RE]: a zero alone, or a run of digits that
    does not start with a zero. *)
Definition scan_natural (s : str) : option (N * str) :=
  match s with
  | [] => None
  | c :: s' =>
      if c =? 48 then Some (0, s')
      else match scan_digits s with
           | (Decimal.Nil, _) => None
           | (d, rest) => Some (N.of_uint d, rest)
           end
  end.

(** A number.  When a fraction or an exponent could follow, the number is a
    float or the document is in error: both are [None] here. *)
Definition scan_number (s : str) : option (Z * str) :=
  '(neg, s) ← Some (match s with
                    | c :: s' => if c =? 45 then (true, s') else (false, s)
                    | [] => (false, s)
                    end);
  '(n, rest) ← scan_natural s;
  match rest with
  | c :: _ =>
      if (c =? 46) || (c =? 101) || (c =? 69) then None
      else Some (if neg : bool then (- Z.of_N n)%Z else Z.of_N n, rest)
  | [] => Some (if neg : bool then (- Z.of_N n)%Z else Z.of_N n, rest)
  end.

(** [scan_once], [JSONArray] and [JSONObject]: the value at the head of the
    text and what follows it.  [fuel] bounds the number of values and
    items read. *)
Fixpoint scan_once (fuel : nat) (s : str) : option (value * str) :=
  match fuel with
  | O => None
  | S fuel =>
      match s with
      | [] => None
      | c :: r =>
          if c =? quote then '(x, r') ← scanstring r; Some (Str x, r')
          else if c =? 123 then
            match skip_ws r with
            | c' :: r' =>
                if c' =? 125 then Some (Dict [], r')
                else '(items, r'') ← parse_items fuel (c' :: r'); Some (Dict items, r'')
            | [] => None
            end
          else if c =? 91 then
            match skip_ws r with
            | c' :: r' =>
                if c' =? 93 then Some (List [], r')
                else '(l, r'') ← parse_elements fuel (c' :: r'); Some (List l, r'')
            | [] => None
            end
          else if startswith (u "null") s then Some (Null, drop 4 s)
          else if startswith (u "true") s then Some (Bool true, drop 4 s)
          else if startswith (u "false") s then Some (Bool false, drop 5 s)
          else '(z, r') ← scan_number s; Some (Int z, r')
      end
  end
with parse_elements (fuel : nat) (s : str) : option (list value * str) :=
  match fuel with
  | O => None
  | S fuel =>
      '(v, r) ← scan_once fuel s;
      match skip_ws r with
      | c :: r' =>
          if c =? 44 then
            '(l, r'') ← parse_elements fuel (skip_ws r'); Some (v :: l, r'')
          else if c =? 93 then Some ([v], r')
          else None
      | [] => None
      end
  end
with parse_items (fuel : nat) (s : str) : option (list (str * value) * str) :=
  match fuel with
  | O => None
  | S fuel =>
      match s with
      | c :: r =>
          if c =? quote then
            '(key, r1) ← scanstring r;
            match skip_ws r1 with
            | c1 :: r2 =>
                if c1 =? 58 then
                  '(v, r3) ← scan_once fuel (skip_ws r2);
                  match skip_ws r3 with
                  | c3 :: r4 =>
                      if c3 =? 44 then
                        '(items, r5) ← parse_items fuel (skip_ws r4);
                        Some ((key, v) :: items, r5)
                      else if c3 =? 125 then Some ([(key, v)], r4)
                      else None
                  | [] => None
                  end
                else None
            | [] => None
            end
          else None
      | [] => None
      end
  end.

(** [json.loads(s)]: one value, with nothing but whitespace around it. *)
Definition loads (s : str) : option value :=
  '(v, rest) ← scan_once (S (length s)) (skip_ws s);
  match skip_ws rest with
  | [] => Some v
  | _ :: _ => None
  end.

End Json.

(** [json_data]: the document of the JSON download, for the identifiers
    [vpas] exported at the time [generated_at]
    ([datetime.now().isoformat()]). *)
Definition json_document (generated_at : str) (vpas : list str) : Json.value :=
  Json.Dict
    [ (u "generated_at", Json.Str generated_at);
      (u "total_vpas", Json.Int (Z.of_nat (length vpas)));
      (u "vpas", Json.List (map Json.Str vpas)) ].

Definition json_data (generated_at : str) (vpas : list str) : str :=
  Json.dumps (json_document generated_at vpas).

(** ** The handles *)

(** [DEFAULT_HANDLES] *)
Definition DEFAULT_HANDLES : list str :=
  [
    u "paytm"; u "ybl"; u "okaxis"; u "oksbi"; u "okicici"; u "okhdfc";
    u "ibl"; u "axl"; u "apl"; u "barodampay"; u "cnrb"; u "federal";
    u "ikwik"; u "indus"; u "kmbl"; u "pockets"; u "timecosmos"; u "yapl";
    u "airtel"; u "fbl"; u "hsbc"; u "icici"; u "kotak"; u "pingpay";
    u "sib"; u "unionbank"; u "jupiter"; u "fbpe"; u "aubank"; u "bandhan";
    u "citi"; u "dbs"; u "equitas"; u "idfc"; u "indianbank"; u "iob";
    u "jio"; u "kvb"; u "lvb"; u "mybank"; u "niyogin"; u "obc"; u "pnb";
    u "rbl"; u "scb"; u "synb"; u "tjsb"; u "uco"; u "unionbankofindia";
    u "united"; u "vijb"; u "yesbank"; u "postbank" ].

(** [x in l] for a list of strings. *)
Definition in_list (x : str) (l : list str) : bool := bool_decide (x ∈ l).

(** The arguments of [st.success], [st.error] and [st.warning] in the
    "Custom" tab. *)
Inductive handle_feedback :=
| AddedHandle (h : str)       (* st.success(f"Added: {new_handle}") *)
| EnterAHandle                (* st.error("Enter a handle") *)
| AlreadyExists               (* st.warning("Already exists") *)
| AddedBulk (added : nat).    (* st.success(f"Added {added} new handles") *)

(** [st.session_state['custom_handles'] = l] *)
Definition set_custom_handles (l : list str) (st : session_state) : session_state :=
  {| custom_handles := l; vpas := vpas st;
     valid_numbers := valid_numbers st; history := history st |}.

(** The body of [if st.button("Add")]. *)
Definition on_add (new_handle : str) (st : session_state)
    : session_state * handle_feedback :=
  if truthy new_handle && negb (in_list new_handle DEFAULT_HANDLES)
     && negb (in_list new_handle (custom_handles st))
  then (set_custom_handles (custom_handles st ++ [new_handle]) st,
        AddedHandle new_handle)
  else if negb (truthy new_handle) then (st, EnterAHandle)
  else (st, AlreadyExists).

(** The body of [if st.button("Clear All")]. *)
Definition on_clear_all (st : session_state) : session_state :=
  set_custom_handles [] st.

(** [[h.strip() for h in s.split('\n') if h.strip()]] *)
Definition stripped_lines (s : str) : list str :=
  map strip (filter (fun h => truthy (strip h) = true) (split 10 s)).

(** One turn of the loop of the bulk addition, on the list of custom
    handles and the counter [added]. *)
Definition add_bulk_step (acc : list str * nat) (h : str) : list str * nat :=
  if negb (in_list h DEFAULT_HANDLES) && negb (in_list h (fst acc))
  then (fst acc ++ [h], S (snd acc))
  else acc.

(** The body of [if st.button("Add Bulk")]; nothing happens, and nothing
    is shown, when the text area is empty. *)
Definition on_add_bulk (bulk_handles : str) (st : session_state)
    : session_state * option handle_feedback :=
  if truthy bulk_handles then
    let new_handles := stripped_lines bulk_handles in
    let r := fold_left add_bulk_step new_handles (custom_handles st, 0%nat) in
    (set_custom_handles (fst r) st, Some (AddedBulk (snd r)))
  else (st, None).

(** The delete button of the custom handle at index [i]:
    [custom_handles.pop(i)], an [IndexError] ([None]) out of range. *)
Definition on_delete (i : nat) (st : session_state) : option session_state :=
  if decide (i < length (custom_handles st))%nat
  then Some (set_custom_handles (delete i (custom_handles st)) st)
  else None.

(** The handles selected in the "Handles" tab: all the default ones or the
    choice made in the multiselect, followed by the custom handles when
    there are some and their checkbox is ticked. *)
Definition select_handles (select_all : bool) (multiselect : list str)
    (add_custom : bool) (st : session_state) : list str :=
  let selected_handles := if select_all then DEFAULT_HANDLES else multiselect in
  match custom_handles st with
  | [] => selected_handles
  | _ :: _ =>
      if add_custom then selected_handles ++ custom_handles st
      else selected_handles
  end.

(** ** The history tab *)

(** The expanders of the history tab: the last five records, the newest
    first, each with the number shown after [#]:
    [enumerate(reversed(history[-5:]))] and [len(history) - i]. *)
Definition history_view (h : list GenerationRecord) : list (nat * GenerationRecord) :=
  imap (fun i record => ((length h - i)%nat, record))
    (reverse (drop (length h - 5) h)).

(** The body of [if st.button("Clear History")]. *)
Definition on_clear_history (st : session_state) : session_state :=
  {| custom_handles := custom_handles st; vpas := vpas st;
     valid_numbers := valid_numbers st; history := [] |}.

(** ** The phone numbers read *)

(** The text area: one number per line, blank lines left out. *)
Definition text_area_numbers (phone_input : str) : list str :=
  if truthy phone_input then stripped_lines phone_input else [].

(** [line.strip().split(',')[0]]: [split] returns at least one piece. *)
Definition first_field (line : str) : str :=
  match split 44 (strip line) with
  | p :: _ => p
  | [] => []
  end.

(** The uploaded file, decoded: the first field of every line that is not
    blank. *)
Definition file_numbers (content : str) : list str :=
  map first_field (filter (fun line => truthy (strip line) = true) (split 10 content)).

(** The value of a decimal digit: its offset in its block of ten. *)
Definition decimal_value (c : char) : option N :=
  (fix go (zs : list N) : option N :=
     match zs with
     | [] => None
     | z :: zs' => if in_range z (z + 9) c then Some (c - z) else go zs'
     end) decimal_zeros.

(** The digits of an integer literal: decimal digits, with single
    underscores between digits. *)
Fixpoint int_digits (acc : N) (after_digit : bool) (s : str) : option N :=
  match s with
  | [] => if after_digit then Some acc else None
  | c :: r =>
      if c =? 95 then (if after_digit then int_digits acc false r else None)
      else match decimal_value c with
           | Some d => int_digits (acc * 10 + d) true r
           | None => None
           end
  end.

(** The whitespace that [int] skips at both ends.  [int] turns the
    whitespace above U+007F into spaces and then skips what C's [isspace]
    of the ASCII table gives: the separators U+001C..U+001F, whitespace for
    [str.strip], are no whitespace for [int]. *)
Definition int_space (c : char) : bool :=
  if c <? 127 then in_range 0x09 0x0D c || (c =? 0x20) else isspace_char c.

Fixpoint int_lstrip (s : str) : str :=
  match s with
  | [] => []
  | c :: s' => if int_space c then int_lstrip s' else s
  end.

Fixpoint int_rstrip (s : str) : str :=
  match s with
  | [] => []
  | c :: s' =>
      match int_rstrip s' with
      | [] => if int_space c then [] else [c]
      | r => c :: r
      end
  end.

(** [int(s)]: whitespace around, an optional sign, digits; [None] stands
    for a [ValueError].  (The limit on the number of digits of a
    conversion is left out: the script converts validated strings, of ten
    digits.) *)
Definition int (s : str) : option Z :=
  match int_rstrip (int_lstrip s) with
  | [] => None
  | c :: r =>
      if c =? 45 then n ← int_digits 0 false r; Some (- Z.of_N n)%Z
      else if c =? 43 then n ← int_digits 0 false r; Some (Z.of_N n)
      else n ← int_digits 0 false (c :: r); Some (Z.of_N n)
  end.

(** The body of [if st.button("Generate Range")]: the numbers read, or
    [None] when [int] raises. *)
Definition range_numbers (start_num : str) (count : nat) : option (list str) :=
  if validate_phone_number start_num then
    base ← int start_num;
    Some (map (fun i => Json.repr_int (base + Z.of_nat i)) (seq 0 count))
  else Some [].

(** The two lists of the validation summary. *)
Definition valid_summary (phone_numbers : list str) : list str :=
  filter (fun num => validate_phone_number num = true) phone_numbers.

Definition invalid_summary (phone_numbers : list str) : list str :=
  filter (fun num => validate_phone_number num = false) phone_numbers.

(** ** The results shown *)

(** A row of the table view. *)
Record table_row := {
  row_phone_number : str;
  row_upi_handle : str;
  row_full_vpa : str
}.

(** The loop that builds [df_data]: one row per identifier with an ['@'],
    from the first two pieces of [vpa.split('@')]. *)
Definition table_rows (vpas : list str) : option (list table_row) :=
  fold_left
    (fun df_data vpa =>
       df ← df_data;
       if contains at_sign vpa then
         let parts := split at_sign vpa in
         p0 ← parts !! 0%nat; p1 ← parts !! 1%nat;
         Some (df ++ [ {| row_phone_number := p0; row_upi_handle := p1;
                          row_full_vpa := vpa |} ])
       else Some df)
    vpas (Some []).

(** [txt_data]: ['\n'.join(vpas)] *)
Definition txt_data (vpas : list str) : str := Json.join [10] vpas.

(** The "Unique VPAs" metric: [len(set(vpas))] *)
Definition unique_count (vpas : list str) : nat := length (list_set vpas).

(** ** Notions used in the statements *)

(** What one number contributes. *)
Definition vpas_of (hs : list str) (fmt : option str) (number : str) : list str :=
  if validate_phone_number number then map (format_vpa fmt number) hs else [].

(** All numbers of a list pass the validator. *)
Definition all_valid (ns : list str) : Prop :=
  Forall (fun n => validate_phone_number n = true) ns.

(** The validator as the specification words it: trimmed, exactly ten
    characters, each of them one of ['0'..'9']. *)
Definition ascii_digit (c : char) : bool := in_range 48 57 c.

Definition ten_ascii_digits (t : str) : bool :=
  (len (strip t) =? 10)%nat && forallb ascii_digit (strip t).

(** The number 9876543210 written with ARABIC-INDIC DIGITS
    (U+0669 U+0668 ... U+0660). *)
Definition arabic_indic_number : str :=
  [0x669; 0x668; 0x667; 0x666; 0x665; 0x664; 0x663; 0x662; 0x661; 0x660].

(** Ten times SUPERSCRIPT TWO (U+00B2). *)
Definition superscript_twos : str := repeat 0xB2 10.

(** The characters that a valid number can be made of. *)
Definition digit_or_space (c : char) : bool := isdigit_char c || isspace_char c.

(** A string of whitespace only (the empty string included). *)
Definition blank (s : str) : bool := forallb isspace_char s.

(** The widgets of a first run with one number and no handle selected. *)
Definition no_handle_inputs : inputs :=
  {| phone_numbers := [u "9876543210"]; selected_handles := [];
     custom_format := None; add_prefix := []; add_suffix := [];
     remove_duplicates := true; sort_choice := NoSorting;
     now := u "2024-01-01 00:00:00" |}.

(** The widgets of the example of the specification: prefix [+91], suffix
    [-v], one number, one handle, default template. *)
Definition decorated_inputs : inputs :=
  {| phone_numbers := [u "9876543210"]; selected_handles := [u "x"];
     custom_format := None; add_prefix := u "+91"; add_suffix := u "-v";
     remove_duplicates := true; sort_choice := NoSorting;
     now := u "2024-01-01 00:00:00" |}.

(** The widgets of a run with two custom handles that contain an ['@'],
    duplicates kept, sorted by handle. *)
Definition two_at_inputs : inputs :=
  {| phone_numbers := [u "9876543210"]; selected_handles := [u "a@z"; u "a@b"];
     custom_format := None; add_prefix := []; add_suffix := [];
     remove_duplicates := false; sort_choice := ByHandle;
     now := u "2024-01-01 00:00:00" |}.

Import Json.

(** A character of Unicode text: a code point that is not a surrogate. *)
Definition scalar_value (c : char) : bool :=
  (c <? 0xD800) || in_range 0xE000 0x10FFFF c.

(** A string of Unicode text, as the decoding of UTF-8 input yields. *)
Definition text (s : str) : Prop := Forall (fun c => scalar_value c = true) s.

(** A code point: the characters of a [str] are below [0x110000]. *)
Definition code_point (c : char) : bool := c <? 0x110000.

(** No high surrogate is directly followed by a low surrogate. *)
Fixpoint no_surrogate_pair (s : str) : bool :=
  match s with
  | [] => true
  | c1 :: s' =>
      match s' with
      | [] => true
      | c2 :: _ => negb (is_high_surrogate c1 && is_low_surrogate c2)
      end && no_surrogate_pair s'
  end.

(** The strings that are read back as they were written: those of code
    points, without a surrogate pair written as two characters. *)
Definition json_safe (s : str) : Prop :=
  Forall (fun c => code_point c = true) s /\ no_surrogate_pair s = true.

(** What may follow an integer: the end of the text, or a character that is
    not a digit and does not start a fraction or an exponent. *)
Definition ends_number (rest : str) : Prop :=
  match rest with
  | [] => True
  | c :: _ =>
      (forall d, digit_of c d = None)
      /\ (c =? 46) || (c =? 101) || (c =? 69) = false
  end.

(** What the "Custom" tab keeps true of the custom handles: no handle
    twice, none empty, none among the default ones. *)
Definition handles_ok (l : list str) : Prop :=
  NoDup l /\ Forall (fun h => h <> [] /\ (h ∉ DEFAULT_HANDLES)) l.

(** The identifiers that the handler generates, before the options. *)
Definition generated (i : inputs) : list str :=
  generate_vpas (decorated_numbers i) (selected_handles i) (custom_format i).

(** * Properties *)

(** ** The combinator as a comprehension *)

Lemma inner_loop_app (f : str -> str) (hs : list str) (acc : list str) :
  fold_left (fun vpas handle => vpas ++ [f handle]) hs acc = acc ++ map f hs.
Proof.
  revert acc. induction hs as [|h hs IH]; intros acc; simpl.
  - by rewrite app_nil_r.
  - rewrite IH, <- app_assoc. done.
Qed.

Lemma outer_loop_app (hs : list str) (fmt : option str) (ns : list str) (acc : list str) :
  fold_left
    (fun vpas number =>
       if validate_phone_number number
       then fold_left (fun vpas handle => vpas ++ [format_vpa fmt number handle]) hs vpas
       else vpas) ns acc
  = acc ++ flat_map (vpas_of hs fmt) ns.
Proof.
  revert acc. induction ns as [|n ns IH]; intros acc; simpl.
  - by rewrite app_nil_r.
  - rewrite IH. unfold vpas_of at 2.
    destruct (validate_phone_number n).
    + rewrite inner_loop_app, <- app_assoc. done.
    + done.
Qed.

Lemma generate_vpas_flat_map ns hs fmt :
  generate_vpas ns hs fmt = flat_map (vpas_of hs fmt) ns.
Proof. unfold generate_vpas. by rewrite outer_loop_app. Qed.

Lemma generate_vpas_app ns1 ns2 hs fmt :
  generate_vpas (ns1 ++ ns2) hs fmt = generate_vpas ns1 hs fmt ++ generate_vpas ns2 hs fmt.
Proof. rewrite !generate_vpas_flat_map. apply flat_map_app. Qed.

Lemma generate_vpas_cons n ns hs fmt :
  generate_vpas (n :: ns) hs fmt = vpas_of hs fmt n ++ generate_vpas ns hs fmt.
Proof. by rewrite !generate_vpas_flat_map. Qed.

Lemma generate_vpas_length ns hs fmt :
  all_valid ns -> length (generate_vpas ns hs fmt) = (length ns * length hs)%nat.
Proof.
  induction 1 as [|n ns Hn _ IH].
  - done.
  - rewrite generate_vpas_cons, length_app, IH. unfold vpas_of.
    rewrite Hn, length_map. simpl. lia.
Qed.

Lemma list_set_length (l : list str) : (length (list_set l) <= length l)%nat.
Proof.
  unfold list_set. apply submseteq_length, NoDup_submseteq.
  - apply NoDup_elements.
  - intros x Hx. by rewrite elem_of_elements, elem_of_list_to_set in Hx.
Qed.

(** C3.  For a list of [n] tokens that are all valid and a list of [m]
    handles, [generate_vpas] returns exactly [n * m] identifiers, whatever
    the template, and removing the duplicates leaves at most [n * m]. *)
Theorem generate_vpas_count (ns hs : list str) (fmt : option str) :
  all_valid ns ->
  length (generate_vpas ns hs fmt) = (length ns * length hs)%nat
  /\ (length (list_set (generate_vpas ns hs fmt)) <= length ns * length hs)%nat.
Proof.
  intros Hv. split.
  - by apply generate_vpas_length.
  - rewrite <- (generate_vpas_length ns hs fmt Hv). apply list_set_length.
Qed.

Lemma generate_vpas_count_witness :
  all_valid [u "9876543210"; u "9123456789"]
  /\ length (generate_vpas [u "9876543210"; u "9123456789"]
               [u "paytm"; u "ybl"; u "okaxis"] None) = 6%nat.
Proof.
  assert (Hv : all_valid [u "9876543210"; u "9123456789"]).
  { repeat constructor. }
  split; [exact Hv|].
  exact (proj1 (generate_vpas_count [u "9876543210"; u "9123456789"]
                  [u "paytm"; u "ybl"; u "okaxis"] None Hv)).
Defined.

(** C5.  The output is in numbers-major, handles-minor order: with [m]
    handles, the identifier at index [i * m + j] is the one built from the
    [i]-th number and the [j]-th handle. *)
Theorem generate_vpas_order (ns hs : list str) (fmt : option str)
    (i j : nat) (n h : str) :
  all_valid ns ->
  ns !! i = Some n ->
  hs !! j = Some h ->
  generate_vpas ns hs fmt !! (i * length hs + j)%nat = Some (format_vpa fmt n h).
Proof.
  intros Hv. revert i. induction Hv as [|n0 ns Hn0 Hv IH]; intros i Hi Hj.
  - by rewrite lookup_nil in Hi.
  - rewrite generate_vpas_cons. unfold vpas_of. rewrite Hn0.
    destruct i as [|i]; simpl in Hi.
    + injection Hi as ->. simpl.
      rewrite lookup_app_l by (rewrite length_map; by eapply lookup_lt_Some).
      by rewrite list_lookup_fmap, Hj.
    + rewrite lookup_app_r by (rewrite length_map; simpl; lia).
      rewrite length_map.
      replace (S i * length hs + j - length hs)%nat with (i * length hs + j)%nat
        by (simpl; lia).
      by apply IH.
Qed.

Lemma generate_vpas_order_witness :
  generate_vpas [u "9876543210"; u "9123456789"] [u "paytm"; u "ybl"; u "okaxis"] None
    !! (1 * length [u "paytm"; u "ybl"; u "okaxis"] + 2)%nat
  = Some (u "9123456789@okaxis").
Proof.
  apply (generate_vpas_order [u "9876543210"; u "9123456789"]
           [u "paytm"; u "ybl"; u "okaxis"] None 1 2 (u "9123456789") (u "okaxis")).
  - repeat constructor.
  - reflexivity.
  - reflexivity.
Defined.

(** ** The validator *)

Lemma ascii_digit_isdigit c : ascii_digit c = true -> isdigit_char c = true.
Proof.
  unfold ascii_digit, isdigit_char. intros H.
  apply orb_true_iff. left. cbn [decimal_zeros existsb].
  apply orb_true_iff. left. exact H.
Qed.

Lemma isdigit_forallb s : isdigit s = negb (Nat.eqb (length s) 0) && forallb isdigit_char s.
Proof. by destruct s. Qed.

(** What the validator checks. *)
Lemma validate_phone_number_iff t :
  validate_phone_number t = true
  <-> length (strip t) = 10%nat /\ Forall (fun c => isdigit_char c = true) (strip t).
Proof.
  unfold validate_phone_number, len. cbv zeta.
  rewrite andb_true_iff, Nat.eqb_eq, isdigit_forallb, andb_true_iff.
  rewrite forallb_forall, List.Forall_forall. split.
  - intros (Hl & _ & Hd). auto.
  - intros (Hl & Hd). rewrite Hl. auto.
Qed.

(** Ten ASCII digits are always accepted. *)
Lemma ten_ascii_digits_valid t :
  ten_ascii_digits t = true -> validate_phone_number t = true.
Proof.
  unfold ten_ascii_digits, len. rewrite andb_true_iff, Nat.eqb_eq, forallb_forall.
  intros [Hl Hd]. apply validate_phone_number_iff. split; [done|].
  apply List.Forall_forall. intros c Hc. by apply ascii_digit_isdigit, Hd.
Qed.

(** The examples of the specification. *)
Example validate_ten_digits : validate_phone_number (u "9876543210") = true.
Proof. reflexivity. Qed.

Example validate_nine_digits_padded : validate_phone_number (u " 987654321 ") = false.
Proof. reflexivity. Qed.

Example validate_eleven_digits : validate_phone_number (u "98765432100") = false.
Proof. reflexivity. Qed.

Example validate_letter : validate_phone_number (u "98765a3210") = false.
Proof. reflexivity. Qed.

(** C1.  [validate_phone_number] accepts strings of ten characters that are
    digits for [str.isdigit] without being one of ['0'..'9']: a number in
    Arabic-Indic digits and ten superscript twos both validate, although
    neither consists of ten decimal digits 0-9. *)
Theorem validate_accepts_non_ascii_digits :
  validate_phone_number arabic_indic_number = true
  /\ ten_ascii_digits arabic_indic_number = false
  /\ validate_phone_number superscript_twos = true
  /\ ten_ascii_digits superscript_twos = false.
Proof. repeat split; vm_compute; reflexivity. Qed.

(** ** Tokens that do not validate *)

Lemma vpas_of_invalid hs fmt t :
  validate_phone_number t = false -> vpas_of hs fmt t = [].
Proof. unfold vpas_of. by intros ->. Qed.

Lemma generate_vpas_filter ns hs fmt :
  generate_vpas ns hs fmt
  = generate_vpas (filter (fun n => validate_phone_number n = true) ns) hs fmt.
Proof.
  induction ns as [|n ns IH]; [done|].
  rewrite filter_cons. destruct (decide (validate_phone_number n = true)) as [Hn|Hn].
  - by rewrite !generate_vpas_cons, IH.
  - rewrite generate_vpas_cons, IH, vpas_of_invalid; [done|].
    by destruct (validate_phone_number n).
Qed.

(** ** Decorated numbers *)

Lemma rstrip_blank b : blank b = true -> rstrip b = [].
Proof.
  induction b as [|x b IH]; simpl; [done|].
  intros [Hx Hb]%andb_true_iff. by rewrite IH, Hx.
Qed.

Lemma rstrip_not_blank b : blank b = false -> rstrip b <> [].
Proof.
  induction b as [|x b IH]; simpl; [done|].
  destruct (rstrip b) eqn:Hr; [|done].
  destruct (isspace_char x) eqn:Hx; [|done].
  simpl. intros Hb. by apply IH.
Qed.

Lemma rstrip_app a b : rstrip b <> [] -> rstrip (a ++ b) = a ++ rstrip b.
Proof.
  intros Hb. induction a as [|x a IH]; simpl; [done|].
  rewrite IH. destruct (a ++ rstrip b) eqn:E; [|done].
  by apply app_eq_nil in E as [_ ?].
Qed.

Lemma rstrip_app_blank a b : blank b = true -> rstrip (a ++ b) = rstrip a.
Proof.
  intros Hb. induction a as [|x a IH]; simpl.
  - by apply rstrip_blank.
  - by rewrite IH.
Qed.

Lemma lstrip_blank a : blank a = true -> lstrip a = [].
Proof.
  induction a as [|x a IH]; simpl; [done|].
  intros [Hx Ha]%andb_true_iff. rewrite Hx. by apply IH.
Qed.

Lemma lstrip_not_blank a : blank a = false -> lstrip a <> [].
Proof.
  induction a as [|x a IH]; simpl; [done|].
  destruct (isspace_char x); [exact IH|done].
Qed.

Lemma lstrip_app a b : blank a = false -> lstrip (a ++ b) = lstrip a ++ b.
Proof.
  induction a as [|x a IH]; simpl; [done|].
  destruct (isspace_char x); [exact IH|done].
Qed.

Lemma lstrip_app_blank a b : blank a = true -> lstrip (a ++ b) = lstrip b.
Proof.
  induction a as [|x a IH]; simpl; [done|].
  intros [Hx Ha]%andb_true_iff. rewrite Hx. by apply IH.
Qed.

Lemma lstrip_split s : exists ws, blank ws = true /\ s = ws ++ lstrip s.
Proof.
  induction s as [|x s (ws & Hws & IH)]; simpl; [by exists []|].
  destruct (isspace_char x) eqn:Hx.
  - exists (x :: ws). simpl. rewrite Hx, Hws. split; [done|]. by rewrite <- IH.
  - by exists [].
Qed.

Lemma rstrip_length s : (length (rstrip s) <= length s)%nat.
Proof.
  induction s as [|x s IH]; simpl; [done|].
  destruct (rstrip s); [destruct (isspace_char x)|]; simpl in *; lia.
Qed.

Lemma valid_rstrip n :
  validate_phone_number n = true ->
  (10 <= length (rstrip n))%nat /\ (10 <= length (lstrip n))%nat /\ blank n = false.
Proof.
  intros [Hl _]%validate_phone_number_iff. unfold strip in Hl.
  assert (Hne : rstrip (lstrip n) <> []) by (intros E; by rewrite E in Hl).
  split; [|split].
  - destruct (lstrip_split n) as (ws & _ & Hn). rewrite Hn at 1.
    rewrite rstrip_app, length_app by done. lia.
  - pose proof (rstrip_length (lstrip n)). lia.
  - destruct (blank n) eqn:Hb; [|done]. by rewrite (lstrip_blank n Hb) in Hne.
Qed.

Lemma long_invalid t : (10 < length (strip t))%nat -> validate_phone_number t = false.
Proof.
  intros Ht. unfold validate_phone_number, len. cbv zeta.
  apply andb_false_iff. left. apply Nat.eqb_neq. lia.
Qed.

Lemma prefixed_invalid p m :
  blank p = false -> (10 <= length (rstrip m))%nat ->
  validate_phone_number (p ++ m) = false.
Proof.
  intros Hp Hm. apply long_invalid. unfold strip.
  assert (Hr : rstrip m <> []) by (intros E; rewrite E in Hm; simpl in Hm; lia).
  rewrite lstrip_app, rstrip_app, length_app by done.
  pose proof (lstrip_not_blank p Hp). destruct (lstrip p); [done|]. simpl. lia.
Qed.

Lemma suffixed_invalid n q :
  validate_phone_number n = true -> blank q = false ->
  validate_phone_number (n ++ q) = false.
Proof.
  intros (_ & Hn & Hb)%valid_rstrip Hq. apply long_invalid. unfold strip.
  pose proof (rstrip_not_blank q Hq) as Hr.
  rewrite lstrip_app, rstrip_app, length_app by done.
  destruct (rstrip q); [done|]. simpl. lia.
Qed.

(** A valid number decorated with a prefix or a suffix that is not blank
    does not validate. *)
Lemma decorated_invalid p q n :
  validate_phone_number n = true ->
  blank p = false \/ blank q = false ->
  validate_phone_number ((p ++ n) ++ q) = false.
Proof.
  intros Hn Hpq. rewrite <- app_assoc.
  destruct (blank p) eqn:Hp.
  - destruct Hpq as [|Hq]; [done|].
    pose proof (suffixed_invalid n q Hn Hq) as Hs.
    unfold validate_phone_number, strip in *. by rewrite lstrip_app_blank.
  - apply prefixed_invalid; [done|].
    destruct (blank q) eqn:Hq.
    + rewrite rstrip_app_blank by done. by apply valid_rstrip.
    + rewrite rstrip_app by (by apply rstrip_not_blank).
      rewrite length_app. apply valid_rstrip in Hn as (_ & Hn & _).
      pose proof (lstrip_split n) as (ws & _ & E). rewrite E, length_app. lia.
Qed.

Lemma decorated_numbers_map i :
  decorated_numbers i
  = map (fun n => (add_prefix i ++ n) ++ add_suffix i)
      (filter (fun num => validate_phone_number num = true) (phone_numbers i)).
Proof.
  unfold decorated_numbers.
  destruct (add_prefix i) as [|a p], (add_suffix i) as [|b q]; cbn [truthy];
    rewrite ?map_map; apply map_ext_in || (symmetry; etrans; [|apply map_id]; apply map_ext);
    intros; by rewrite ?app_nil_r.
Qed.

Lemma generate_vpas_all_invalid ns hs fmt :
  Forall (fun n => validate_phone_number n = false) ns -> generate_vpas ns hs fmt = [].
Proof.
  induction 1 as [|n ns Hn _ IH]; [done|].
  by rewrite generate_vpas_cons, IH, vpas_of_invalid.
Qed.

Lemma list_sort_nil {A K} (lt : K -> K -> bool) (key : A -> option K) :
  list_sort lt key [] = Some [].
Proof. done. Qed.

(** X23.  With a prefix or a suffix that is not blank, the handler
    generates no identifier at all, whatever the numbers, the handles, the
    template and the other options. *)
Lemma on_generate_decorated (i : inputs) (st : session_state) :
  phone_numbers i <> [] -> selected_handles i <> [] ->
  blank (add_prefix i) = false \/ blank (add_suffix i) = false ->
  exists st', on_generate i st = Some (st', []) /\ vpas st' = [].
Proof.
  intros Hp Hh Hd. unfold on_generate.
  destruct (phone_numbers i) as [|p ps] eqn:Ei; [done|].
  destruct (selected_handles i) as [|h hs] eqn:Eh; [done|].
  cbv zeta. rewrite generate_vpas_all_invalid.
  - assert (Hs : (if remove_duplicates i then list_set [] else []) = @nil str).
    { by destruct (remove_duplicates i). }
    rewrite Hs.
    assert (Hsort : sort_vpas (sort_choice i) [] = Some []).
    { by destruct (sort_choice i). }
    rewrite Hsort. simpl. by eexists.
  - rewrite decorated_numbers_map. apply Forall_fmap, Forall_forall.
    intros n Hn. apply list_elem_of_filter in Hn as [Hn _].
    by apply decorated_invalid.
Qed.

(** C10.  [generate_vpas] validates every number again: its output is its
    output on the tokens that pass [validate_phone_number]; a token that
    fails contributes nothing, wherever it stands in the list; a token
    whose trimmed form is longer than ten characters fails, and so does a
    valid number decorated with a prefix or a suffix that is not blank. *)
Theorem generate_vpas_revalidates (ns hs : list str) (fmt : option str) :
  generate_vpas ns hs fmt
  = generate_vpas (filter (fun n => validate_phone_number n = true) ns) hs fmt
  /\ (forall t pre post, validate_phone_number t = false ->
        generate_vpas (pre ++ t :: post) hs fmt = generate_vpas (pre ++ post) hs fmt)
  /\ (forall t, (10 < length (strip t))%nat -> validate_phone_number t = false)
  /\ (forall p q n, validate_phone_number n = true ->
        blank p = false \/ blank q = false ->
        validate_phone_number ((p ++ n) ++ q) = false).
Proof.
  split; [apply generate_vpas_filter|]. split; [|split].
  - intros t pre post Ht.
    rewrite !generate_vpas_app, generate_vpas_cons, vpas_of_invalid; done.
  - apply long_invalid.
  - apply decorated_invalid.
Qed.

Lemma generate_vpas_revalidates_witness :
  generate_vpas [u "9876543210"; u "+919123456789-v"; u "9000000000"] [u "x"] None
  = generate_vpas [u "9876543210"; u "9000000000"] [u "x"] None
  /\ validate_phone_number ((u "+91" ++ u "9123456789") ++ u "-v") = false.
Proof.
  pose proof (generate_vpas_revalidates [] [u "x"] None) as (_ & Hdrop & _ & Hdec).
  split.
  - apply (Hdrop (u "+919123456789-v") [u "9876543210"] [u "9000000000"]).
    reflexivity.
  - apply (Hdec (u "+91") (u "-v") (u "9123456789")); [reflexivity|].
    left. reflexivity.
Defined.

(** A token of eleven characters that validates, because the validator
    trims it, and that yields an identifier. *)
Lemma long_token_validates :
  (10 < length (u " 9876543210"))%nat
  /\ validate_phone_number (u " 9876543210") = true
  /\ generate_vpas [u " 9876543210"] [u "x"] None = [u " 9876543210@x"].
Proof. split; [simpl; lia|]. split; vm_compute; reflexivity. Qed.

(** ** The sort keys never raise *)

Lemma split_cons_inv sep s : exists p ps, split sep s = p :: ps.
Proof.
  induction s as [|c s (p & ps & IH)]; simpl; [by eauto|].
  destruct (c =? sep); [by eauto|]. rewrite IH. eauto.
Qed.

Lemma contains_split sep s :
  contains sep s = true -> exists p q ps, split sep s = p :: q :: ps.
Proof.
  induction s as [|c s IH]; simpl; [done|].
  destruct (split_cons_inv sep s) as (p & ps & Hs).
  rewrite (N.eqb_sym sep c). destruct (c =? sep); simpl.
  - rewrite Hs. eauto.
  - intros (p' & q & ps' & Hs') %IH. rewrite Hs'. eauto.
Qed.

Lemma number_key_total x : is_Some (number_key x).
Proof.
  unfold number_key. destruct (split_cons_inv at_sign x) as (p & ps & ->). by eexists.
Qed.

Lemma handle_key_total x : is_Some (handle_key x).
Proof.
  unfold handle_key. destruct (contains at_sign x) eqn:Hc; [|by eexists].
  destruct (contains_split _ _ Hc) as (p & q & ps & ->). by eexists.
Qed.

Lemma list_sort_total {A K} (lt : K -> K -> bool) (key : A -> option K) l :
  (forall x, is_Some (key x)) -> is_Some (list_sort lt key l).
Proof.
  intros Hk. unfold list_sort.
  destruct (mapM_is_Some_2 key l) as [ks ->]; [|by eexists].
  apply Forall_forall. intros x _. apply Hk.
Qed.

Lemma sort_vpas_total o l : is_Some (sort_vpas o l).
Proof.
  destruct o; simpl.
  - by eexists.
  - apply list_sort_total, number_key_total.
  - apply list_sort_total, handle_key_total.
  - apply list_sort_total. by eexists.
Qed.

(** ** The button handler *)

(** C7.  With no phone number or no selected handle, the handler shows an
    error and leaves the session as it was: the stored identifiers are not
    replaced and nothing is added to the history.  In every other case it
    completes without an error and appends exactly one record to the
    history. *)
Theorem on_generate_history (i : inputs) (st : session_state) :
  (phone_numbers i = [] \/ selected_handles i = [] ->
     exists msg, on_generate i st = Some (st, [msg]))
  /\ (phone_numbers i <> [] -> selected_handles i <> [] ->
     exists st' r,
       on_generate i st = Some (st', [])
       /\ history st' = history st ++ [r]
       /\ length (history st') = S (length (history st))).
Proof.
  unfold on_generate. split.
  - intros [Hp|Hh].
    + rewrite Hp. eauto.
    + rewrite Hh. destruct (phone_numbers i); eauto.
  - intros Hp Hh.
    destruct (phone_numbers i) as [|p ps]; [done|].
    destruct (selected_handles i) as [|h hs]; [done|].
    cbv zeta.
    match goal with
    | |- context [sort_vpas ?o ?l] => destruct (sort_vpas_total o l) as [vs ->]
    end.
    simpl. eexists _, _. split; [reflexivity|]. simpl. split; [reflexivity|].
    rewrite length_app. simpl. lia.
Qed.

Lemma on_generate_history_witness :
  (exists msg, on_generate no_handle_inputs empty_session = Some (empty_session, [msg]))
  /\ (exists st' r,
        on_generate decorated_inputs empty_session = Some (st', [])
        /\ history st' = history empty_session ++ [r]
        /\ length (history st') = S (length (history empty_session))).
Proof.
  split.
  - apply (proj1 (on_generate_history no_handle_inputs empty_session)).
    right. reflexivity.
  - apply (proj2 (on_generate_history decorated_inputs empty_session)); discriminate.
Defined.

(** C2.  On the example of the specification the number is decorated to
    [+919876543210-v], but [generate_vpas] validates it again and drops it:
    the handler stores no identifier at all, and records a generation of one
    phone, one handle and zero identifiers. *)
Theorem on_generate_decorated_is_empty :
  decorated_numbers decorated_inputs = [u "+919876543210-v"]
  /\ exists st',
       on_generate decorated_inputs empty_session = Some (st', [])
       /\ vpas st' = []
       /\ history st' =
            [ {| timestamp := u "2024-01-01 00:00:00";
                 phone_count := 1; handle_count := 1; vpas_count := 0 |} ].
Proof.
  split; [vm_compute; reflexivity|].
  eexists. split; [vm_compute; reflexivity|]. split; reflexivity.
Qed.

(** ** Replacement *)

Lemma replace_nil old new : old <> [] -> replace old new [] = [].
Proof. destruct old; [done|]. intros _. by simp replace. Qed.

Lemma replace_cons old new c s :
  old <> [] ->
  replace old new (c :: s)
  = if startswith old (c :: s)
    then new ++ replace old new (drop (length old) (c :: s))
    else c :: replace old new s.
Proof. destruct old; [done|]. intros _. by simp replace. Qed.

Lemma startswith_app p s : startswith p s = true -> s = p ++ drop (length p) s.
Proof.
  revert s. induction p as [|a p IH]; intros [|c s]; simpl; try done.
  intros [->%N.eqb_eq Hp]%andb_true_iff. f_equal. by apply IH.
Qed.

Lemma startswith_occurs p s : occurs p s = false -> startswith p s = false.
Proof. destruct s; simpl; by intros [? ?]%orb_false_iff. Qed.

Lemma occurs_drop p s k : occurs p s = false -> occurs p (drop k s) = false.
Proof.
  revert s. induction k as [|k IH]; intros s; [by rewrite drop_0|].
  destruct s as [|c s]; [done|]. simpl. intros [_ Hs]%orb_false_iff. by apply IH.
Qed.

(** Where the searched text does not occur, nothing is replaced. *)
Lemma replace_absent old new s :
  old <> [] -> occurs old s = false -> replace old new s = s.
Proof.
  intros Ho. induction s as [|c s IH]; intros Hs.
  - by apply replace_nil.
  - rewrite replace_cons by done. rewrite (startswith_occurs _ _ Hs).
    simpl in Hs. apply orb_false_iff in Hs as [_ Hs]. by rewrite IH.
Qed.

(** Characters that cannot open an occurrence are copied. *)
Lemma replace_skips o old' new pre rest :
  Forall (fun c => o <> c) pre ->
  replace (o :: old') new (pre ++ rest) = pre ++ replace (o :: old') new rest.
Proof.
  induction 1 as [|c pre Hc _ IH]; [done|].
  simpl. rewrite replace_cons by done. simpl.
  replace (o =? c) with false by (symmetry; by apply N.eqb_neq).
  simpl. by rewrite IH.
Qed.

(** ** The characters of a valid number *)

Lemma Forall_lstrip (Q : char -> Prop) s :
  Forall Q (lstrip s) -> Forall (fun c => isspace_char c = true \/ Q c) s.
Proof.
  induction s as [|c s IH]; simpl; [done|].
  destruct (isspace_char c) eqn:Hc.
  - intros H. constructor; auto.
  - intros H. eapply Forall_impl; [exact H|]. auto.
Qed.

Lemma Forall_rstrip (Q : char -> Prop) s :
  Forall Q (rstrip s) -> Forall (fun c => isspace_char c = true \/ Q c) s.
Proof.
  induction s as [|c s IH]; simpl; [done|].
  destruct (rstrip s) as [|r rs] eqn:Hr.
  - destruct (isspace_char c) eqn:Hc; intros H.
    + constructor; auto.
    + constructor; [right; by inversion H|auto].
  - intros H. inversion H; subst. constructor; auto.
Qed.

Lemma valid_digit_or_space n :
  validate_phone_number n = true ->
  n <> [] /\ Forall (fun c => digit_or_space c = true) n.
Proof.
  intros [Hl Hd]%validate_phone_number_iff. split.
  - intros ->. discriminate Hl.
  - unfold strip in Hd. apply Forall_rstrip, Forall_lstrip in Hd.
    eapply Forall_impl; [exact Hd|]. intros c. unfold digit_or_space. simpl.
    intros [->|[->| ->]]; by rewrite ?orb_true_r.
Qed.

(** No character of a placeholder is a digit or a space. *)
Lemma digit_or_space_not_in_placeholder c :
  digit_or_space c = true -> contains c HANDLE = false /\ contains c NUMBER = false.
Proof.
  intros Hc.
  assert (Hall : forall p, forallb (fun a => negb (digit_or_space a)) p = true ->
                           contains c p = false).
  { intros p Hp. destruct (contains c p) eqn:E; [|done].
    apply existsb_exists in E as (a & Ha & <-%N.eqb_eq).
    rewrite forallb_forall in Hp. apply Hp in Ha. by rewrite Hc in Ha. }
  split; apply Hall; vm_compute; reflexivity.
Qed.

(** ** Replacing one placeholder after the other is one simultaneous pass *)

Section Substitution.
Variables number handle : str.
Hypothesis number_nonempty : number <> [].
Hypothesis number_inert : Forall (fun c => contains c HANDLE = false) number.

Lemma NUMBER_nonempty : NUMBER <> [].
Proof. done. Qed.

Lemma HANDLE_nonempty : HANDLE <> [].
Proof. done. Qed.

(** A text made of characters of [{handle}] other than the brace that
    opens it is found at the head of a string after the first replacement
    exactly when it was there before. *)
Lemma startswith_replace_number w s :
  Forall (fun a => a <> 123 /\ contains a HANDLE = true) w ->
  startswith w (replace NUMBER number s) = startswith w s.
Proof.
  intros Hw. revert s. induction Hw as [|a w [Ha Hin] Hw IH]; intros s; [done|].
  destruct s as [|c s].
  - by rewrite (replace_nil NUMBER).
  - rewrite (replace_cons NUMBER) by done.
    destruct (startswith NUMBER (c :: s)) eqn:Hn.
    + assert (c = 123) as ->.
      { change NUMBER with (123 :: u "number}") in Hn. cbn [startswith] in Hn.
        apply andb_true_iff in Hn as [Hc _]. by apply N.eqb_eq in Hc. }
      destruct number as [|n0 n']; [done|]. cbn [app startswith].
      inversion number_inert as [|? ? Hn0 _]; subst.
      replace (a =? n0) with false; [|symmetry; apply N.eqb_neq; intros ->; congruence].
      replace (a =? 123) with false; [done|symmetry; by apply N.eqb_neq].
    + simpl. f_equal. apply IH.
Qed.

(** The number put in by the first replacement opens no [{handle}]. *)
Lemma replace_handle_skips_number rest :
  replace HANDLE handle (number ++ rest) = number ++ replace HANDLE handle rest.
Proof.
  apply replace_skips. eapply Forall_impl; [exact number_inert|].
  intros c Hc <-. done.
Qed.

(** The first replacement leaves an occurrence of [{handle}] in place. *)
Lemma replace_number_skips_handle rest :
  replace NUMBER number (HANDLE ++ rest) = HANDLE ++ replace NUMBER number rest.
Proof.
  change HANDLE with [123; 104; 97; 110; 100; 108; 101; 125].
  cbn [app]. do 8 (rewrite (replace_cons NUMBER) by done; simpl startswith; cbv iota).
  done.
Qed.

Theorem replace_replace_substitute fmt :
  replace HANDLE handle (replace NUMBER number fmt) = substitute fmt number handle.
Proof.
  remember (length fmt) as k eqn:Hk. revert fmt Hk.
  induction k as [k IH] using lt_wf_ind. intros [|c s] Hk.
  - simp substitute. by rewrite (replace_nil NUMBER), (replace_nil HANDLE).
  - simp substitute.
    destruct (startswith NUMBER (c :: s)) eqn:Hn.
    + rewrite (replace_cons NUMBER), Hn by done.
      rewrite replace_handle_skips_number. f_equal.
      eapply IH; [|reflexivity]. subst k. rewrite length_drop. simpl. lia.
    + destruct (startswith HANDLE (c :: s)) eqn:Hh.
      * rewrite (startswith_app _ _ Hh) at 1.
        rewrite replace_number_skips_handle.
        change HANDLE with (123 :: u "handle}") at 2.
        cbn [app]. rewrite (replace_cons HANDLE) by done.
        replace (startswith HANDLE (123 :: u "handle}" ++ replace NUMBER number (drop (length HANDLE) (c :: s))))
          with true by (vm_compute; reflexivity).
        f_equal.
        replace (drop (length HANDLE) (123 :: u "handle}" ++ replace NUMBER number (drop (length HANDLE) (c :: s))))
          with (replace NUMBER number (drop (length HANDLE) (c :: s))) by reflexivity.
        eapply IH; [|reflexivity]. subst k. rewrite length_drop. simpl. lia.
      * rewrite (replace_cons NUMBER), Hn by done.
        rewrite (replace_cons HANDLE) by done.
        replace (startswith HANDLE (c :: replace NUMBER number s)) with false.
        { f_equal. eapply IH; [|reflexivity]. subst k. simpl. lia. }
        rewrite <- Hh. change HANDLE with (123 :: u "handle}").
        cbn [startswith]. f_equal. symmetry. apply startswith_replace_number.
        repeat constructor; done.
Qed.
End Substitution.

(** ** Templates *)

Lemma valid_number_inert n :
  validate_phone_number n = true ->
  n <> [] /\ Forall (fun c => contains c HANDLE = false) n.
Proof.
  intros [Hne Hall]%valid_digit_or_space. split; [done|].
  eapply Forall_impl; [exact Hall|].
  intros c Hc. by apply digit_or_space_not_in_placeholder.
Qed.

Lemma format_vpa_default n h : format_vpa None n h = n ++ at_sign :: h.
Proof. done. Qed.

Lemma format_vpa_custom fmt n h :
  fmt <> [] -> format_vpa (Some fmt) n h = replace HANDLE h (replace NUMBER n fmt).
Proof. by destruct fmt. Qed.

Lemma format_vpa_substitute fmt n h :
  fmt <> [] -> validate_phone_number n = true ->
  format_vpa (Some fmt) n h = substitute fmt n h.
Proof.
  intros Hf [Hne Hin]%valid_number_inert.
  rewrite format_vpa_custom by done. by apply replace_replace_substitute.
Qed.

(** The output for valid numbers, identifier by identifier. *)
Lemma generate_vpas_valid ns hs fmt (f : str -> str -> str) :
  all_valid ns ->
  (forall n h, validate_phone_number n = true -> format_vpa fmt n h = f n h) ->
  generate_vpas ns hs fmt = flat_map (fun n => map (f n) hs) ns.
Proof.
  intros Hv Hf. rewrite generate_vpas_flat_map.
  induction Hv as [|n ns Hn Hv IH]; [done|].
  simpl. rewrite IH. f_equal. unfold vpas_of. rewrite Hn.
  apply map_ext. intros h. by apply Hf.
Qed.

(** Without an occurrence of [{handle}], the simultaneous pass replaces the
    occurrences of [{number}] only. *)
Lemma substitute_no_handle fmt n h :
  occurs HANDLE fmt = false -> substitute fmt n h = replace NUMBER n fmt.
Proof.
  remember (length fmt) as k eqn:Hk. revert fmt Hk.
  induction k as [k IH] using lt_wf_ind. intros [|c s] Hk Ho.
  - simp substitute. by rewrite replace_nil.
  - simp substitute. rewrite replace_cons by done.
    rewrite (startswith_occurs _ _ Ho).
    destruct (startswith NUMBER (c :: s)).
    + f_equal. eapply IH; [| reflexivity | by apply occurs_drop].
      subst k. rewrite length_drop. simpl. lia.
    + f_equal. eapply IH; [| reflexivity |].
      * subst k. simpl. lia.
      * simpl in Ho. by apply orb_false_iff in Ho as [_ ?].
Qed.

Lemma flat_map_const (x : str) (ns hs : list str) :
  flat_map (fun _ : str => map (fun _ : str => x) hs) ns
  = repeat x (length ns * length hs).
Proof.
  assert (Hm : map (fun _ : str => x) hs = repeat x (length hs)).
  { induction hs as [|h hs IHh]; [done|]. simpl. by rewrite IHh. }
  induction ns as [|n ns IH]; [done|].
  simpl. by rewrite IH, repeat_app, Hm.
Qed.

(** The empty template is falsy: [if custom_format:] sends it to the
    default format. *)
Lemma format_vpa_empty n h : format_vpa (Some []) n h = n ++ at_sign :: h.
Proof. reflexivity. Qed.

(** C4.  For valid numbers, generation with the default template yields
    [n + "@" + h] for every pair, generation with a non-empty template of
    the caller yields the template with every occurrence of [{number}]
    replaced by [n] and every occurrence of [{handle}] replaced by [h], and
    the empty template counts as no template: generation with it yields
    [n + "@" + h] for every pair, as the default one does. *)
Theorem generate_vpas_template (ns hs : list str) :
  all_valid ns ->
  generate_vpas ns hs None = flat_map (fun n => map (fun h => n ++ at_sign :: h) hs) ns
  /\ (forall fmt, fmt <> [] ->
       generate_vpas ns hs (Some fmt)
       = flat_map (fun n => map (fun h => substitute fmt n h) hs) ns)
  /\ generate_vpas ns hs (Some [])
     = flat_map (fun n => map (fun h => n ++ at_sign :: h) hs) ns.
Proof.
  intros Hv. split; [|split].
  - by apply generate_vpas_valid.
  - intros fmt Hf. apply generate_vpas_valid; [done|].
    intros n h Hn. by apply format_vpa_substitute.
  - apply generate_vpas_valid; [done|]. intros n h _. apply format_vpa_empty.
Qed.

Lemma generate_vpas_template_witness :
  generate_vpas [u "9876543210"] [u "paytm"] None = [u "9876543210@paytm"]
  /\ generate_vpas [u "9876543210"] [u "paytm"] (Some (u "{handle}:{number}"))
     = [u "paytm:9876543210"]
  /\ generate_vpas [u "9876543210"] [u "paytm"] (Some []) = [u "9876543210@paytm"].
Proof.
  assert (Hv : all_valid [u "9876543210"]) by (repeat constructor).
  destruct (generate_vpas_template [u "9876543210"] [u "paytm"] Hv) as (Hd & Hc & He).
  split; [|split].
  - exact Hd.
  - assert (Hf : u "{handle}:{number}" <> []) by discriminate.
    exact (Hc (u "{handle}:{number}") Hf).
  - exact He.
Defined.

(** An empty template of the caller is not used: the default one is. *)
Lemma empty_template_is_default :
  generate_vpas [u "9876543210"] [u "paytm"] (Some [])
  <> [substitute [] (u "9876543210") (u "paytm")].
Proof. vm_compute. discriminate. Qed.

(** C8.  A template is never rejected, whichever placeholders it lacks:
    every pair of a valid number and a handle yields an identifier.  In the
    identifiers of a non-empty template the placeholders that are present
    are replaced and the rest of the template is kept: without [{number}]
    only the handle is put in, without [{handle}] only the number, and
    without both every pair yields the template itself.  The empty template
    counts as no template: its identifiers are those of the default
    format, [n + "@" + h]. *)
Theorem malformed_template_degrades (fmt : str) (ns hs : list str) :
  all_valid ns ->
  length (generate_vpas ns hs (Some fmt)) = (length ns * length hs)%nat
  /\ (fmt <> [] ->
      generate_vpas ns hs (Some fmt)
      = flat_map (fun n => map (fun h => substitute fmt n h) hs) ns
      /\ (occurs NUMBER fmt = false ->
          generate_vpas ns hs (Some fmt)
          = flat_map (fun _ => map (fun h => replace HANDLE h fmt) hs) ns)
      /\ (occurs HANDLE fmt = false ->
          generate_vpas ns hs (Some fmt)
          = flat_map (fun n => map (fun _ => replace NUMBER n fmt) hs) ns)
      /\ (occurs NUMBER fmt = false -> occurs HANDLE fmt = false ->
          generate_vpas ns hs (Some fmt) = repeat fmt (length ns * length hs)))
  /\ (fmt = [] ->
      generate_vpas ns hs (Some fmt)
      = flat_map (fun n => map (fun h => n ++ at_sign :: h) hs) ns
      /\ generate_vpas ns hs (Some fmt) = generate_vpas ns hs None).
Proof.
  intros Hv. split; [by apply generate_vpas_length|]. split.
  - intros Hf. split; [|split; [|split]].
    + apply generate_vpas_valid; [done|]. intros n h Hn.
      by apply format_vpa_substitute.
    + intros Hn. apply generate_vpas_valid; [done|]. intros n h _.
      rewrite format_vpa_custom by done. by rewrite (replace_absent NUMBER).
    + intros Hh. apply generate_vpas_valid; [done|]. intros n h Hn.
      rewrite format_vpa_substitute by done. by apply substitute_no_handle.
    + intros Hn Hh. rewrite <- flat_map_const.
      apply generate_vpas_valid; [done|]. intros n h _.
      rewrite format_vpa_custom by done.
      by rewrite (replace_absent NUMBER), (replace_absent HANDLE).
  - intros ->.
    assert (He : generate_vpas ns hs (Some [])
                 = flat_map (fun n => map (fun h => n ++ at_sign :: h) hs) ns).
    { apply generate_vpas_valid; [done|]. intros n h _. apply format_vpa_empty. }
    split; [exact He|]. etrans; [exact He|]. symmetry.
    by apply generate_vpas_valid.
Qed.

Lemma malformed_template_degrades_witness :
  generate_vpas [u "9876543210"; u "9123456789"] [u "paytm"; u "ybl"] (Some (u "fixed"))
  = [u "fixed"; u "fixed"; u "fixed"; u "fixed"]
  /\ generate_vpas [u "9876543210"] [u "paytm"; u "ybl"] (Some [])
     = [u "9876543210@paytm"; u "9876543210@ybl"].
Proof.
  split.
  - assert (Hf : u "fixed" <> []) by discriminate.
    assert (Hv : all_valid [u "9876543210"; u "9123456789"]) by (repeat constructor).
    apply (proj2 (proj2 (proj2
             (proj1 (proj2 (malformed_template_degrades (u "fixed")
                [u "9876543210"; u "9123456789"] [u "paytm"; u "ybl"] Hv)) Hf))));
      reflexivity.
  - assert (Hv : all_valid [u "9876543210"]) by (repeat constructor).
    exact (proj1 (proj2 (proj2 (malformed_template_degrades []
                                  [u "9876543210"] [u "paytm"; u "ybl"] Hv))
                    eq_refl)).
Defined.

(** The empty template has neither placeholder, and yet the identifiers of
    two handles differ: they are built with the default template. *)
Lemma empty_template_not_constant :
  occurs NUMBER [] = false /\ occurs HANDLE [] = false
  /\ generate_vpas [u "9876543210"] [u "paytm"] (Some [])
     <> generate_vpas [u "9876543210"] [u "ybl"] (Some []).
Proof. repeat split. vm_compute. discriminate. Qed.

(** ** The key of the sort by handle *)

Lemma split_no_sep sep s : contains sep s = false -> split sep s = [s].
Proof.
  induction s as [|c s IH]; simpl; [done|].
  rewrite (N.eqb_sym sep c). destruct (c =? sep); simpl; [done|].
  intros Hs. by rewrite IH.
Qed.

Lemma split_app_sep sep p q :
  contains sep p = false -> split sep (p ++ sep :: q) = p :: split sep q.
Proof.
  induction p as [|c p IH]; simpl.
  - intros _. by rewrite N.eqb_refl.
  - rewrite (N.eqb_sym sep c). destruct (c =? sep); simpl; [done|].
    intros Hp. by rewrite IH.
Qed.

Lemma contains_app_sep sep p q : contains sep (p ++ sep :: q) = true.
Proof.
  unfold contains. rewrite existsb_app. simpl. rewrite N.eqb_refl.
  by rewrite orb_true_r.
Qed.

Lemma after_first_app_sep sep p q :
  contains sep p = false -> after_first sep (p ++ sep :: q) = Some q.
Proof.
  induction p as [|c p IH]; simpl.
  - intros _. by rewrite N.eqb_refl.
  - rewrite (N.eqb_sym sep c). destruct (c =? sep); simpl; [done|]. apply IH.
Qed.

Lemma after_first_no_sep sep s : contains sep s = false -> after_first sep s = None.
Proof.
  induction s as [|c s IH]; simpl; [done|].
  rewrite (N.eqb_sym sep c). destruct (c =? sep); simpl; [done|]. apply IH.
Qed.

(** The key computed by the program for an identifier with an ['@']: what
    stands between the first ['@'] and the next one. *)
Lemma handle_key_app p q :
  contains at_sign p = false ->
  handle_key (p ++ at_sign :: q) = split at_sign q !! 0%nat
  /\ handle_part (p ++ at_sign :: q) = q.
Proof.
  intros Hp. unfold handle_key, handle_part.
  by rewrite contains_app_sep, split_app_sep, after_first_app_sep.
Qed.

(** The two keys agree on identifiers with at most one ['@']. *)
Lemma handle_key_no_at x :
  contains at_sign x = false -> handle_key x = Some (handle_part x).
Proof.
  intros Hx. unfold handle_key, handle_part. by rewrite Hx, after_first_no_sep.
Qed.

Lemma handle_key_one_at p q :
  contains at_sign p = false -> contains at_sign q = false ->
  handle_key (p ++ at_sign :: q) = Some (handle_part (p ++ at_sign :: q)).
Proof.
  intros Hp Hq. destruct (handle_key_app p q Hp) as [-> ->].
  by rewrite split_no_sep.
Qed.

(** The example of the specification. *)
Example sort_by_handle_example :
  sort_vpas ByHandle [u "2@b"; u "1@a"; u "3@a"] = Some [u "1@a"; u "3@a"; u "2@b"].
Proof. vm_compute. reflexivity. Qed.

(** C6.  For identifiers with more than one ['@'] the key of the sort by
    handle is not the whole substring after the first ['@'] but only its
    part up to the next ['@']: [9876543210@a@z] and [9876543210@a@b] both
    have the key [a], so the sort keeps them in this order, although
    [a@b] is smaller than [a@z]. *)
Theorem sort_by_handle_second_at :
  handle_key (u "9876543210@a@z") = Some (u "a")
  /\ handle_part (u "9876543210@a@z") = u "a@z"
  /\ handle_key (u "9876543210@a@b") = Some (u "a")
  /\ handle_part (u "9876543210@a@b") = u "a@b"
  /\ ltb (u "a@b") (u "a@z") = true
  /\ sort_vpas ByHandle [u "9876543210@a@z"; u "9876543210@a@b"]
     = Some [u "9876543210@a@z"; u "9876543210@a@b"]
  /\ exists st',
       on_generate two_at_inputs empty_session = Some (st', [])
       /\ vpas st' = [u "9876543210@a@z"; u "9876543210@a@b"].
Proof.
  repeat split; try (vm_compute; reflexivity).
  eexists. split; vm_compute; reflexivity.
Qed.

(** ** The JSON export: strings *)

Lemma hexval_hexdigit d : d < 16 -> hexval (hexdigit d) = Some d.
Proof.
  intros Hd.
  assert (Hcases : In d [0; 1; 2; 3; 4; 5; 6; 7; 8; 9; 10; 11; 12; 13; 14; 15]).
  { simpl. lia. }
  repeat (destruct Hcases as [<-|Hcases]; [reflexivity|]). destruct Hcases.
Qed.

Lemma decode_hex4 n : n < 0x10000 -> decode_uXXXX (hex4 n) = Some n.
Proof.
  intros Hn. unfold hex4, decode_uXXXX.
  rewrite !hexval_hexdigit by (apply N.mod_lt; lia). simpl.
  f_equal.
  change 4096 with (16 * (16 * 16)). change 256 with (16 * 16).
  rewrite <- !N.Div0.div_div.
  pose proof (N.div_mod n 16). pose proof (N.div_mod (n / 16) 16).
  pose proof (N.div_mod (n / 16 / 16) 16).
  assert (n / 16 / 16 / 16 < 16).
  { rewrite !N.Div0.div_div. apply N.Div0.div_lt_upper_bound. simpl. lia. }
  rewrite (N.mod_small (n / 16 / 16 / 16) 16) by done.
  lia.
Qed.

(** The clauses of [scanstring], by the kind of the character read. *)
Lemma scanstring_quote r : scanstring (quote :: r) = Some ([], r).
Proof. destruct r; by simp scanstring. Qed.

Lemma scanstring_plain c r :
  c <> quote -> c <> backslash -> 0x20 <= c ->
  scanstring (c :: r) = push c (scanstring r).
Proof.
  intros Hq Hb Hc.
  apply N.eqb_neq in Hq, Hb. apply N.ltb_ge in Hc.
  destruct r; simp scanstring; by rewrite Hq, ?Hb, ?Hc.
Qed.

Lemma scanstring_escape esc ch r :
  esc <> 117 -> unescape esc = Some ch ->
  scanstring (backslash :: esc :: r) = push ch (scanstring r).
Proof.
  intros He%N.eqb_neq Hu. simp scanstring.
  change (backslash =? quote) with false. change (backslash =? backslash) with true.
  cbv iota. by rewrite He, Hu.
Qed.

Lemma scanstring_uXXXX uni r :
  decode_uXXXX (take 4 r) = Some uni -> is_high_surrogate uni = false ->
  scanstring (backslash :: 117 :: r) = push uni (scanstring (drop 4 r)).
Proof.
  intros Hd Hh. simp scanstring.
  change (backslash =? quote) with false. change (backslash =? backslash) with true.
  change (117 =? 117) with true. cbv iota. by rewrite Hd, Hh.
Qed.

Lemma scanstring_surrogates s1 s2 r :
  decode_uXXXX (take 4 r) = Some s1 -> is_high_surrogate s1 = true ->
  startswith (backslash :: u "u") (drop 4 r) = true ->
  decode_uXXXX (take 4 (drop 6 r)) = Some s2 -> is_low_surrogate s2 = true ->
  scanstring (backslash :: 117 :: r)
  = push (0x10000 + N.lor (N.shiftl (s1 - 0xd800) 10) (s2 - 0xdc00))
      (scanstring (drop 10 r)).
Proof.
  intros Hd1 Hh Hs Hd2 Hl. simp scanstring.
  change (backslash =? quote) with false. change (backslash =? backslash) with true.
  change (117 =? 117) with true. cbv iota. by rewrite Hd1, Hh, Hs, Hd2, Hl.
Qed.

(** The two halves of a surrogate pair. *)
Lemma land_shifted_low a b : b < 1024 -> N.land (a * 1024) b = 0.
Proof.
  intros Hb. apply N.bits_inj_0. intros i. rewrite N.land_spec.
  destruct (N.lt_ge_cases i 10) as [Hi|Hi].
  - change 1024 with (2 ^ 10). by rewrite N.mul_pow2_bits_low.
  - destruct (N.eq_dec b 0) as [->|Hb0]; [by rewrite N.bits_0, andb_false_r|].
    rewrite (N.bits_above_log2 b i), andb_false_r; [done|].
    eapply N.lt_le_trans; [|exact Hi]. apply N.log2_lt_pow2; [lia|]. exact Hb.
Qed.

Lemma lor_shifted_low a b : b < 1024 -> N.lor (a * 1024) b = a * 1024 + b.
Proof.
  intros Hb. pose proof (land_shifted_low a b Hb) as Hl.
  by rewrite <- N.lxor_lor, <- N.add_nocarry_lxor.
Qed.

Lemma surrogate_pair c :
  0x10000 <= c -> c < 0x110000 ->
  let n := c - 0x10000 in
  let s1 := N.lor 0xd800 (N.land (N.shiftr n 10) 0x3ff) in
  let s2 := N.lor 0xdc00 (N.land n 0x3ff) in
  s1 = 0xd800 + n / 1024 /\ s2 = 0xdc00 + n mod 1024
  /\ 0x10000 + N.lor (N.shiftl (s1 - 0xd800) 10) (s2 - 0xdc00) = c.
Proof.
  intros Hlo Hhi n s1 s2.
  assert (Hn : n < 1024 * 1024) by (unfold n; lia).
  assert (Hq : n / 1024 < 1024) by (apply N.Div0.div_lt_upper_bound; lia).
  assert (Hr : n mod 1024 < 1024) by (apply N.mod_lt; lia).
  assert (H1 : s1 = 0xd800 + n / 1024).
  { unfold s1. change 0x3ff with (N.ones 10). rewrite N.land_ones, N.shiftr_div_pow2.
    change (2 ^ 10) with 1024. rewrite (N.mod_small _ _ Hq).
    change 0xd800 with (54 * 1024). by apply lor_shifted_low. }
  assert (H2 : s2 = 0xdc00 + n mod 1024).
  { unfold s2. change 0x3ff with (N.ones 10). rewrite N.land_ones.
    change (2 ^ 10) with 1024. change 0xdc00 with (55 * 1024).
    by apply lor_shifted_low. }
  split; [done|]. split; [done|].
  rewrite H1, H2, N.shiftl_mul_pow2. change (2 ^ 10) with 1024.
  rewrite (N.add_comm 0xd800), (N.add_comm 0xdc00), !N.add_sub.
  rewrite lor_shifted_low by done.
  rewrite (N.mul_comm (n / 1024)), <- N.div_mod by done. unfold n. lia.
Qed.

Lemma scanstring_uXXXX_alone uni r :
  decode_uXXXX (take 4 r) = Some uni ->
  startswith (backslash :: u "u") (drop 4 r) = false ->
  scanstring (backslash :: 117 :: r) = push uni (scanstring (drop 4 r)).
Proof.
  intros Hd Hs. simp scanstring.
  change (backslash =? quote) with false. change (backslash =? backslash) with true.
  change (117 =? 117) with true. cbv iota. by rewrite Hd, Hs, andb_false_r.
Qed.

Lemma scanstring_uXXXX_not_low uni uni2 r :
  decode_uXXXX (take 4 r) = Some uni ->
  decode_uXXXX (take 4 (drop 6 r)) = Some uni2 -> is_low_surrogate uni2 = false ->
  scanstring (backslash :: 117 :: r) = push uni (scanstring (drop 4 r)).
Proof.
  intros Hd Hd2 Hl. simp scanstring.
  change (backslash =? quote) with false. change (backslash =? backslash) with true.
  change (117 =? 117) with true. cbv iota. rewrite Hd.
  destruct (is_high_surrogate uni && startswith (backslash :: u "u") (drop 4 r));
    [|done].
  by rewrite Hd2, Hl.
Qed.

Lemma take_hex4 n rest : take 4 (hex4 n ++ rest) = hex4 n.
Proof. done. Qed.

Lemma drop_hex4 n rest : drop 4 (hex4 n ++ rest) = rest.
Proof. done. Qed.

(** The escape of a character beyond the Basic Multilingual Plane. *)
Lemma escape_char_pair c :
  0x10000 <= c -> c < 0x110000 ->
  exists s1 s2,
    escape_char c = backslash :: 117 :: hex4 s1 ++ backslash :: 117 :: hex4 s2
    /\ 0xd800 <= s1 <= 0xdbff /\ 0xdc00 <= s2 <= 0xdfff
    /\ 0x10000 + N.lor (N.shiftl (s1 - 0xd800) 10) (s2 - 0xdc00) = c.
Proof.
  intros Hlo Hhi.
  destruct (surrogate_pair c Hlo Hhi) as (H1 & H2 & H3). cbv zeta in H1, H2, H3.
  eexists _, _. split; [|split; [|split; [|exact H3]]].
  - unfold escape_char.
    replace (c =? quote) with false by (unfold quote; lia).
    replace (c =? backslash) with false by (unfold backslash; lia).
    replace (c =? 10) with false by lia. replace (c =? 13) with false by lia.
    replace (c =? 9) with false by lia. replace (c =? 8) with false by lia.
    replace (c =? 12) with false by lia.
    replace (in_range 32 126 c) with false by (unfold in_range; lia).
    replace (c <? 65536) with false by lia. done.
  - assert (Hq : (c - 0x10000) / 1024 < 1024) by (apply N.Div0.div_lt_upper_bound; lia).
    rewrite H1. clear -Hq. revert Hq. generalize ((c - 65536) / 1024). intros q Hq. lia.
  - assert (Hr : (c - 0x10000) mod 1024 < 1024) by (apply N.mod_lt; lia).
    rewrite H2. clear -Hr. revert Hr. generalize ((c - 65536) mod 1024). intros q Hr. lia.
Qed.

(** The escape of a surrogate, or of another character that is written
    with its number. *)
Lemma escape_char_numeric c :
  c < 0x10000 -> in_range 32 126 c = false ->
  c <> 10 -> c <> 13 -> c <> 9 -> c <> 8 -> c <> 12 ->
  escape_char c = backslash :: 117 :: hex4 c.
Proof.
  intros Hc Hr H10 H13 H9 H8 H12. unfold escape_char, in_range in *.
  replace (c =? quote) with false by (unfold quote; lia).
  replace (c =? backslash) with false by (unfold backslash; lia).
  replace (c =? 10) with false by lia. replace (c =? 13) with false by lia.
  replace (c =? 9) with false by lia. replace (c =? 8) with false by lia.
  replace (c =? 12) with false by lia. rewrite Hr.
  replace (c <? 65536) with true by lia. done.
Qed.

(** Reading back the escape of one character that is not a high
    surrogate. *)
Lemma scanstring_escape_char c rest :
  code_point c = true -> is_high_surrogate c = false ->
  scanstring (escape_char c ++ rest) = push c (scanstring rest).
Proof.
  intros Hc Hh.
  destruct (N.lt_ge_cases c 0x10000) as [Hlt|Hge].
  - destruct (c =? quote) eqn:E1.
    { apply N.eqb_eq in E1 as ->. by apply scanstring_escape. }
    destruct (c =? backslash) eqn:E2.
    { apply N.eqb_eq in E2 as ->. by apply scanstring_escape. }
    destruct (c =? 10) eqn:E3.
    { apply N.eqb_eq in E3 as ->. by apply scanstring_escape. }
    destruct (c =? 13) eqn:E4.
    { apply N.eqb_eq in E4 as ->. by apply scanstring_escape. }
    destruct (c =? 9) eqn:E5.
    { apply N.eqb_eq in E5 as ->. by apply scanstring_escape. }
    destruct (c =? 8) eqn:E6.
    { apply N.eqb_eq in E6 as ->. by apply scanstring_escape. }
    destruct (c =? 12) eqn:E7.
    { apply N.eqb_eq in E7 as ->. by apply scanstring_escape. }
    apply N.eqb_neq in E1, E2, E3, E4, E5, E6, E7.
    destruct (in_range 32 126 c) eqn:E8.
    { unfold escape_char.
      rewrite (proj2 (N.eqb_neq _ _) E1), (proj2 (N.eqb_neq _ _) E2),
        (proj2 (N.eqb_neq _ _) E3), (proj2 (N.eqb_neq _ _) E4),
        (proj2 (N.eqb_neq _ _) E5), (proj2 (N.eqb_neq _ _) E6),
        (proj2 (N.eqb_neq _ _) E7), E8.
      apply scanstring_plain; [done|done|]. unfold in_range in E8. lia. }
    rewrite escape_char_numeric by done. cbn [app].
    rewrite (scanstring_uXXXX c).
    + by rewrite drop_hex4.
    + rewrite take_hex4. by apply decode_hex4.
    + done.
  - assert (Hhi : c < 0x110000) by (unfold code_point in Hc; lia).
    destruct (escape_char_pair c Hge Hhi) as (s1 & s2 & -> & Hs1 & Hs2 & H3).
    cbn [app]. rewrite <- app_assoc. cbn [app].
    rewrite (scanstring_surrogates s1 s2); [by rewrite H3|clear H3..].
    + rewrite take_hex4. apply decode_hex4. lia.
    + unfold is_high_surrogate, in_range. apply andb_true_iff; split; apply N.leb_le; lia.
    + by rewrite drop_hex4.
    + change (decode_uXXXX (take 4 (hex4 s2 ++ rest)) = Some s2).
      rewrite take_hex4. apply decode_hex4. lia.
    + unfold is_low_surrogate, in_range. apply andb_true_iff; split; apply N.leb_le; lia.
Qed.

(** What the escape of a character that is not a low surrogate starts
    with: not with [\u], or with the number of a character that is not a
    low surrogate. *)
Lemma escape_char_next c rest :
  code_point c = true -> is_low_surrogate c = false ->
  startswith (backslash :: u "u") (escape_char c ++ rest) = false
  \/ exists v rest',
       escape_char c ++ rest = backslash :: 117 :: hex4 v ++ rest'
       /\ v < 0x10000 /\ is_low_surrogate v = false.
Proof.
  intros Hc Hl.
  destruct (N.lt_ge_cases c 0x10000) as [Hlt|Hge].
  - unfold escape_char.
    destruct (c =? quote) eqn:E1; [by left|].
    destruct (c =? backslash) eqn:E2; [by left|].
    destruct (c =? 10) eqn:E3; [by left|].
    destruct (c =? 13) eqn:E4; [by left|].
    destruct (c =? 9) eqn:E5; [by left|].
    destruct (c =? 8) eqn:E6; [by left|].
    destruct (c =? 12) eqn:E7; [by left|].
    destruct (in_range 32 126 c) eqn:E8.
    { left. cbn [app startswith]. rewrite (N.eqb_sym backslash c), E2. done. }
    replace (c <? 65536) with true by lia.
    right. exists c, rest. done.
  - assert (Hhi : c < 0x110000) by (unfold code_point in Hc; lia).
    destruct (escape_char_pair c Hge Hhi) as (s1 & s2 & -> & Hs1 & Hs2 & _).
    right. exists s1, (backslash :: 117 :: hex4 s2 ++ rest).
    split; [|split].
    + cbn [app]. by rewrite <- app_assoc.
    + lia.
    + unfold is_low_surrogate, in_range. lia.
Qed.

(** Reading back the escape of a high surrogate that is not followed by
    the escape of a low one. *)
Lemma scanstring_high c rest :
  is_high_surrogate c = true ->
  startswith (backslash :: u "u") rest = false
  \/ (exists v rest',
        rest = backslash :: 117 :: hex4 v ++ rest'
        /\ v < 0x10000 /\ is_low_surrogate v = false) ->
  scanstring (escape_char c ++ rest) = push c (scanstring rest).
Proof.
  intros Hh Hnext.
  assert (Hc : 0xd800 <= c <= 0xdbff) by (unfold is_high_surrogate, in_range in Hh; lia).
  rewrite escape_char_numeric by (unfold in_range; lia). cbn [app].
  destruct Hnext as [Hs|(v & rest' & -> & Hv & Hl)].
  - rewrite (scanstring_uXXXX_alone c); rewrite ?take_hex4, ?drop_hex4; try done.
    apply decode_hex4. lia.
  - rewrite (scanstring_uXXXX_not_low c v); rewrite ?take_hex4, ?drop_hex4; try done.
    + apply decode_hex4. lia.
    + change (decode_uXXXX (take 4 (hex4 v ++ rest')) = Some v).
      rewrite take_hex4. by apply decode_hex4.
Qed.

(** Reading back an encoded string. *)
Lemma scanstring_encode s rest :
  json_safe s -> scanstring (flat_map escape_char s ++ quote :: rest) = Some (s, rest).
Proof.
  intros [Hcp Hns]. induction Hcp as [|c s Hc Hcp IH]; cbn [flat_map app].
  - apply scanstring_quote.
  - cbn [no_surrogate_pair] in Hns. apply andb_true_iff in Hns as [Hpair Hns].
    rewrite <- app_assoc.
    destruct (is_high_surrogate c) eqn:Hh.
    + rewrite scanstring_high, IH; [done..|].
      destruct Hcp as [|c2 s Hc2 _]; [by left|].
      cbn [flat_map]. rewrite <- app_assoc.
      apply escape_char_next; [done|].
      cbn [andb] in Hpair. by destruct (is_low_surrogate c2).
    + by rewrite scanstring_escape_char, IH.
Qed.

Lemma scalar_value_code_point c : scalar_value c = true -> code_point c = true.
Proof. unfold scalar_value, code_point, in_range. lia. Qed.

Lemma scalar_value_not_high c : scalar_value c = true -> is_high_surrogate c = false.
Proof. unfold scalar_value, is_high_surrogate, in_range. lia. Qed.

(** Unicode text is read back as written. *)
Lemma text_json_safe s : text s -> json_safe s.
Proof.
  induction 1 as [|c s Hc Hs [IH1 IH2]]; [by split|]. split.
  - constructor; [by apply scalar_value_code_point|done].
  - cbn [no_surrogate_pair]. rewrite IH2, andb_true_r.
    destruct s; [done|]. by rewrite (scalar_value_not_high c).
Qed.

(** ** The JSON export: integers *)

Lemma scan_digits_digits d rest :
  ends_number rest -> scan_digits (digits d ++ rest) = (d, rest).
Proof.
  intros Hr.
  induction d; simpl; rewrite ?IHd; try reflexivity.
  destruct rest as [|c r]; [done|]. destruct Hr as [Hd _].
  simpl. destruct (scan_digits r) as [d0 r0]. by rewrite Hd.
Qed.

Lemma nzhead_not_D0 d d' : Decimal.nzhead d <> Decimal.D0 d'.
Proof. induction d; simpl; done. Qed.

Lemma to_uint_not_D0 p d' : Pos.to_uint p <> Decimal.D0 d'.
Proof.
  intros E.
  pose proof (DecimalPos.Unsigned.to_of (Pos.to_uint p)) as Hn.
  rewrite DecimalPos.Unsigned.of_to in Hn. simpl in Hn.
  rewrite E in Hn. unfold Decimal.unorm in Hn.
  destruct (Decimal.nzhead (Decimal.D0 d')) eqn:Hz; try discriminate Hn.
  - injection Hn as ->. by apply (DecimalPos.Unsigned.to_uint_nonzero p).
  - by apply nzhead_not_D0 in Hz.
Qed.

Lemma scan_natural_pos p rest :
  ends_number rest ->
  scan_natural (digits (Pos.to_uint p) ++ rest) = Some (Npos p, rest).
Proof.
  intros Hr. unfold scan_natural.
  pose proof (scan_digits_digits (Pos.to_uint p) rest Hr) as Hs.
  pose proof (DecimalPos.Unsigned.of_to p) as Hp.
  pose proof (to_uint_not_D0 p) as H0.
  pose proof (DecimalPos.Unsigned.to_uint_nonnil p) as Hnil.
  unfold N.of_uint.
  destruct (Pos.to_uint p) as [|d|d|d|d|d|d|d|d|d|d] eqn:E; try done;
    try (by specialize (H0 d));
    cbn [digits app] in *; cbn [N.eqb Pos.eqb]; rewrite Hs; cbv iota; by rewrite Hp.
Qed.

(** Reading back the length written by [repr_int]. *)
Lemma scan_number_repr (k : nat) rest :
  ends_number rest ->
  scan_number (repr_int (Z.of_nat k) ++ rest) = Some (Z.of_nat k, rest).
Proof.
  intros Hr. unfold scan_number.
  assert (Htail : forall n : N,
    match rest with
    | [] => Some (Z.of_N n, rest)
    | c :: _ =>
        if (c =? 46) || (c =? 101) || (c =? 69) then None
        else Some (Z.of_N n, rest)
    end = Some (Z.of_N n, rest)).
  { intros n. destruct rest as [|c r]; [done|]. destruct Hr as [_ ->]. done. }
  destruct k as [|k].
  - simpl. apply (Htail 0).
  - change (Z.of_nat (S k)) with (Z.pos (Pos.of_succ_nat k)). cbn [repr_int].
    set (p := Pos.of_succ_nat k).
    pose proof (scan_natural_pos p rest Hr) as Hs.
    pose proof (to_uint_not_D0 p) as H0.
    pose proof (DecimalPos.Unsigned.to_uint_nonnil p) as Hnil.
    destruct (Pos.to_uint p) as [|d|d|d|d|d|d|d|d|d|d] eqn:E; try done;
      cbn [digits app] in *; cbn [N.eqb Pos.eqb mbind option_bind];
      rewrite Hs; cbn [mbind option_bind]; apply (Htail (Npos p)).
Qed.

(** ** The JSON export: the document *)

Lemma skip_ws_newline_indent k s : skip_ws (newline_indent k ++ s) = skip_ws s.
Proof.
  unfold newline_indent. cbn [app skip_ws]. change (is_ws 10) with true. cbv iota.
  induction (2 * k)%nat as [|n IH]; [done|]. simpl. exact IH.
Qed.

Lemma skip_ws_head c s : is_ws c = false -> skip_ws (c :: s) = c :: s.
Proof. intros H. simpl. by rewrite H. Qed.

Lemma skip_ws_comma s : skip_ws (u "," ++ s) = 44 :: s.
Proof. done. Qed.

Lemma encode_cons s rest :
  encode_basestring_ascii s ++ rest = quote :: flat_map escape_char s ++ quote :: rest.
Proof. unfold encode_basestring_ascii. simpl. by rewrite <- app_assoc. Qed.

Lemma scan_once_Str fuel s rest :
  (0 < fuel)%nat -> json_safe s ->
  scan_once fuel (encode_basestring_ascii s ++ rest) = Some (Str s, rest).
Proof.
  intros Hf Hs. destruct fuel as [|fuel]; [lia|].
  rewrite encode_cons. cbn [scan_once].
  change (quote =? quote) with true. cbv iota. by rewrite scanstring_encode.
Qed.

Lemma scan_once_digit fuel c r :
  in_range 48 57 c = true ->
  scan_once (S fuel) (c :: r) = '(z, r') ← scan_number (c :: r); Some (Int z, r').
Proof.
  intros Hc. unfold in_range in Hc. cbn [scan_once].
  change (u "null") with (110 :: u "ull"). change (u "true") with (116 :: u "rue").
  change (u "false") with (102 :: u "alse"). cbn [startswith].
  replace (c =? quote) with false by (unfold quote; lia).
  replace (c =? 123) with false by lia. replace (c =? 91) with false by lia.
  replace (110 =? c) with false by lia. replace (116 =? c) with false by lia.
  replace (102 =? c) with false by lia. done.
Qed.

Lemma repr_int_head (k : nat) :
  exists c r, repr_int (Z.of_nat k) = c :: r /\ in_range 48 57 c = true.
Proof.
  destruct k as [|k]; [by eexists _, _|].
  change (Z.of_nat (S k)) with (Z.pos (Pos.of_succ_nat k)). cbn [repr_int].
  pose proof (DecimalPos.Unsigned.to_uint_nonnil (Pos.of_succ_nat k)) as Hnil.
  destruct (Pos.to_uint (Pos.of_succ_nat k)); try done; by eexists _, _.
Qed.

Lemma scan_once_Int fuel (k : nat) rest :
  (0 < fuel)%nat -> ends_number rest ->
  scan_once fuel (repr_int (Z.of_nat k) ++ rest) = Some (Int (Z.of_nat k), rest).
Proof.
  intros Hf Hr. destruct fuel as [|fuel]; [lia|].
  pose proof (scan_number_repr k rest Hr) as Hs.
  destruct (repr_int_head k) as (c & r & E & Hc). rewrite E.
  cbn [app]. rewrite scan_once_digit by done.
  change (c :: r ++ rest) with ((c :: r) ++ rest). by rewrite <- E, Hs.
Qed.

Lemma parse_elements_S fuel s :
  parse_elements (S fuel) s
  = '(v, r) ← scan_once fuel s;
    match skip_ws r with
    | c :: r' =>
        if c =? 44 then
          '(l, r'') ← parse_elements fuel (skip_ws r'); Some (v :: l, r'')
        else if c =? 93 then Some ([v], r')
        else None
    | [] => None
    end.
Proof. done. Qed.

(** The elements of a list of strings at depth 2, up to the closing
    bracket. *)
Lemma parse_elements_strings l' : forall fuel x rest,
  json_safe x -> Forall json_safe l' -> (length l' + 2 <= fuel)%nat ->
  parse_elements fuel
    (join (u "," ++ newline_indent 2) (map encode_basestring_ascii (x :: l'))
     ++ newline_indent 1 ++ u "]" ++ rest)
  = Some (map Str (x :: l'), rest).
Proof.
  induction l' as [|y l' IH]; intros fuel x rest Hx Hl Hf.
  - destruct fuel as [|fuel]; [simpl in Hf; lia|]. simpl in Hf.
    cbn [map join]. rewrite parse_elements_S, scan_once_Str by (done || lia).
    cbn [mbind option_bind]. rewrite skip_ws_newline_indent. done.
  - destruct fuel as [|fuel]; [simpl in Hf; lia|]. simpl in Hf.
    inversion Hl as [|? ? Hy Hl']; subst.
    change (join (u "," ++ newline_indent 2) (map encode_basestring_ascii (x :: y :: l')))
      with (encode_basestring_ascii x ++ (u "," ++ newline_indent 2)
            ++ join (u "," ++ newline_indent 2) (map encode_basestring_ascii (y :: l'))).
    rewrite <- !app_assoc. rewrite parse_elements_S, scan_once_Str by (done || lia).
    cbn [mbind option_bind]. rewrite skip_ws_comma.
    change (44 =? 44) with true. cbv iota.
    rewrite skip_ws_newline_indent.
    assert (Hq : forall t, skip_ws (join (u "," ++ newline_indent 2)
                            (map encode_basestring_ascii (y :: l')) ++ t)
                 = join (u "," ++ newline_indent 2)
                     (map encode_basestring_ascii (y :: l')) ++ t).
    { intros t. cbn [map]. destruct l'; cbn [map join];
        unfold encode_basestring_ascii at 1; done. }
    rewrite Hq, IH; [done..|]. lia.
Qed.

Lemma scan_once_S fuel c r :
  scan_once (S fuel) (c :: r)
  = if c =? quote then '(x, r') ← scanstring r; Some (Str x, r')
    else if c =? 123 then
      match skip_ws r with
      | c' :: r' =>
          if c' =? 125 then Some (Dict [], r')
          else '(items, r'') ← parse_items fuel (c' :: r'); Some (Dict items, r'')
      | [] => None
      end
    else if c =? 91 then
      match skip_ws r with
      | c' :: r' =>
          if c' =? 93 then Some (List [], r')
          else '(l, r'') ← parse_elements fuel (c' :: r'); Some (List l, r'')
      | [] => None
      end
    else if startswith (u "null") (c :: r) then Some (Null, drop 4 (c :: r))
    else if startswith (u "true") (c :: r) then Some (Bool true, drop 4 (c :: r))
    else if startswith (u "false") (c :: r) then Some (Bool false, drop 5 (c :: r))
    else '(z, r') ← scan_number (c :: r); Some (Int z, r').
Proof. done. Qed.

Lemma iterencode_strings level l :
  map (iterencode level) (map Str l) = map encode_basestring_ascii l.
Proof. rewrite map_map. by apply map_ext. Qed.

(** The list of the identifiers, as written at depth 1. *)
Lemma scan_once_string_list fuel l rest :
  Forall json_safe l -> (length l + 2 <= fuel)%nat ->
  scan_once fuel (iterencode 1 (List (map Str l)) ++ rest)
  = Some (List (map Str l), rest).
Proof.
  intros Hl Hf. destruct fuel as [|fuel]; [lia|].
  destruct l as [|x l].
  - done.
  - inversion Hl as [|? ? Hx Hl']; subst. simpl in Hf.
    change (iterencode 1 (List (map Str (x :: l))))
      with (u "[" ++ newline_indent 2
            ++ join (u "," ++ newline_indent 2)
                 (map (iterencode 2) (map Str (x :: l)))
            ++ newline_indent 1 ++ u "]").
    rewrite iterencode_strings, <- !app_assoc.
    change (u "[" ++ ?t) with (91 :: t). rewrite scan_once_S.
    change (91 =? quote) with false. change (91 =? 123) with false.
    change (91 =? 91) with true. cbv iota.
    rewrite skip_ws_newline_indent. cbn [map].
    assert (Hj : exists t, join (u "," ++ newline_indent 2)
                  (encode_basestring_ascii x :: map encode_basestring_ascii l)
                = quote :: t).
    { destruct l; cbn [map join]; unfold encode_basestring_ascii at 1; by eexists. }
    destruct Hj as [t Hj].
    pose proof (parse_elements_strings l fuel x rest Hx Hl' ltac:(lia)) as Hp.
    cbn [map] in Hp. rewrite Hj in *. cbn [app] in *.
    rewrite skip_ws_head by done. change (quote =? 93) with false. cbv iota.
    by rewrite Hp.
Qed.

Lemma parse_items_S fuel c r :
  parse_items (S fuel) (c :: r)
  = if c =? quote then
      '(key, r1) ← scanstring r;
      match skip_ws r1 with
      | c1 :: r2 =>
          if c1 =? 58 then
            '(v, r3) ← scan_once fuel (skip_ws r2);
            match skip_ws r3 with
            | c3 :: r4 =>
                if c3 =? 44 then
                  '(items, r5) ← parse_items fuel (skip_ws r4);
                  Some ((key, v) :: items, r5)
                else if c3 =? 125 then Some ([(key, v)], r4)
                else None
            | [] => None
            end
          else None
      | [] => None
      end
    else None.
Proof. done. Qed.

(** One item of a dict: the key, the colon and the value. *)
Lemma parse_items_item fuel key X v R :
  json_safe key -> skip_ws X = X -> scan_once fuel X = Some (v, R) ->
  parse_items (S fuel) (encode_basestring_ascii key ++ u ": " ++ X)
  = match skip_ws R with
    | c3 :: r4 =>
        if c3 =? 44 then
          '(items, r5) ← parse_items fuel (skip_ws r4); Some ((key, v) :: items, r5)
        else if c3 =? 125 then Some ([(key, v)], r4)
        else None
    | [] => None
    end.
Proof.
  intros Hk HX Hv. rewrite encode_cons, parse_items_S.
  change (quote =? quote) with true. cbv iota.
  rewrite scanstring_encode by done. cbn [mbind option_bind].
  change (u ": " ++ X) with (58 :: 32 :: X).
  rewrite skip_ws_head by done. change (58 =? 58) with true. cbv iota.
  change (skip_ws (32 :: X)) with (skip_ws X). by rewrite HX, Hv.
Qed.

Lemma skip_ws_encode s rest :
  skip_ws (encode_basestring_ascii s ++ rest) = encode_basestring_ascii s ++ rest.
Proof. by rewrite encode_cons. Qed.

Lemma skip_ws_repr (k : nat) rest :
  skip_ws (repr_int (Z.of_nat k) ++ rest) = repr_int (Z.of_nat k) ++ rest.
Proof.
  destruct (repr_int_head k) as (c & r & -> & Hc). cbn [app].
  apply skip_ws_head. unfold in_range in Hc. unfold is_ws. lia.
Qed.

Lemma skip_ws_list level l rest :
  skip_ws (iterencode level (List l) ++ rest) = iterencode level (List l) ++ rest.
Proof. by destruct l. Qed.

(** The text of the document, piece by piece. *)
Lemma json_data_unfold generated_at vpas :
  json_data generated_at vpas
  = 123 :: newline_indent 1
    ++ encode_basestring_ascii (u "generated_at") ++ u ": "
    ++ encode_basestring_ascii generated_at
    ++ u "," ++ newline_indent 1
    ++ encode_basestring_ascii (u "total_vpas") ++ u ": "
    ++ repr_int (Z.of_nat (length vpas))
    ++ u "," ++ newline_indent 1
    ++ encode_basestring_ascii (u "vpas") ++ u ": "
    ++ iterencode 1 (List (map Str vpas))
    ++ newline_indent 0 ++ u "}".
Proof.
  unfold json_data, json_document, dumps.
  change (iterencode 0 (Dict ?items))
    with (u "{" ++ newline_indent 1
          ++ join (u "," ++ newline_indent 1)
               (map (fun kv => encode_basestring_ascii (fst kv) ++ u ": "
                               ++ iterencode 1 (snd kv)) items)
          ++ newline_indent 0 ++ u "}").
  cbn [map join fst snd].
  change (iterencode 1 (Str generated_at)) with (encode_basestring_ascii generated_at).
  change (iterencode 1 (Int ?z)) with (repr_int z).
  rewrite <- !app_assoc. done.
Qed.

Lemma ends_number_comma rest : ends_number (u "," ++ rest).
Proof. done. Qed.

(** Reading the document back, with enough fuel. *)
Lemma scan_once_json_data fuel generated_at vpas :
  json_safe generated_at -> Forall json_safe vpas -> (length vpas + 6 <= fuel)%nat ->
  scan_once fuel (json_data generated_at vpas)
  = Some (json_document generated_at vpas, []).
Proof.
  intros Hg Hv Hf.
  destruct fuel as [|[|[|[|fuel]]]]; [lia..|].
  rewrite json_data_unfold, scan_once_S.
  change (123 =? quote) with false. change (123 =? 123) with true. cbv iota.
  rewrite skip_ws_newline_indent, skip_ws_encode.
  rewrite (encode_cons (u "generated_at")). cbv iota.
  change (quote =? 125) with false. cbv iota.
  rewrite <- (encode_cons (u "generated_at")).
  (* the first item *)
  rewrite (parse_items_item _ (u "generated_at") _ (Str generated_at)
             (u "," ++ newline_indent 1
              ++ encode_basestring_ascii (u "total_vpas") ++ u ": "
              ++ repr_int (Z.of_nat (length vpas))
              ++ u "," ++ newline_indent 1
              ++ encode_basestring_ascii (u "vpas") ++ u ": "
              ++ iterencode 1 (List (map Str vpas))
              ++ newline_indent 0 ++ u "}"));
    [| by repeat constructor | apply skip_ws_encode | apply scan_once_Str; [lia|done] ].
  rewrite skip_ws_comma. change (44 =? 44) with true. cbv iota.
  rewrite skip_ws_newline_indent, skip_ws_encode.
  (* the second item *)
  rewrite (parse_items_item _ (u "total_vpas") _ (Int (Z.of_nat (length vpas)))
             (u "," ++ newline_indent 1
              ++ encode_basestring_ascii (u "vpas") ++ u ": "
              ++ iterencode 1 (List (map Str vpas))
              ++ newline_indent 0 ++ u "}"));
    [| by repeat constructor | apply skip_ws_repr
     | apply scan_once_Int; [lia|apply ends_number_comma] ].
  rewrite skip_ws_comma. change (44 =? 44) with true. cbv iota.
  rewrite skip_ws_newline_indent, skip_ws_encode.
  (* the third item *)
  rewrite (parse_items_item _ (u "vpas") _ (List (map Str vpas))
             (newline_indent 0 ++ u "}"));
    [| by repeat constructor | apply skip_ws_list
     | apply scan_once_string_list; [done|lia] ].
  rewrite skip_ws_newline_indent. done.
Qed.

Lemma join_encode_length sep l :
  (length l <= length (join sep (map encode_basestring_ascii l)))%nat.
Proof.
  induction l as [|x [|y l] IH]; [done|simpl; lia|].
  change (join sep (map encode_basestring_ascii (x :: y :: l)))
    with (encode_basestring_ascii x ++ sep
          ++ join sep (map encode_basestring_ascii (y :: l))).
  rewrite !length_app. unfold encode_basestring_ascii at 1. simpl in *. lia.
Qed.

Lemma iterencode_list_length l :
  (length l <= length (iterencode 1 (List (map Str l))))%nat.
Proof.
  destruct l as [|x l]; [simpl; lia|].
  change (iterencode 1 (List (map Str (x :: l))))
    with (u "[" ++ newline_indent 2
          ++ join (u "," ++ newline_indent 2)
               (map (iterencode 2) (map Str (x :: l)))
          ++ newline_indent 1 ++ u "]").
  rewrite iterencode_strings, !length_app.
  pose proof (join_encode_length (u "," ++ newline_indent 2) (x :: l)). lia.
Qed.

Lemma json_data_length generated_at vpas :
  (length vpas + 5 <= length (json_data generated_at vpas))%nat.
Proof.
  rewrite json_data_unfold. cbn [length]. rewrite !length_app.
  pose proof (iterencode_list_length vpas).
  change (length (u ": ")) with 2%nat. change (length (u ",")) with 1%nat. lia.
Qed.

(** C9.  For every list of identifiers and every timestamp that the
    script can hold, parsing the exported JSON document back yields a dict
    whose item ['vpas'] is the same sequence of strings in the same order,
    and whose item ['total_vpas'] is its length.  The strings of the script
    come from widget text, from decoded UTF-8 and from [isoformat()]: they
    are Unicode text, without surrogate code points.  The hypothesis asks
    less: code points in which no high surrogate is directly followed by a
    low surrogate. *)
Theorem json_round_trip (generated_at : str) (vpas : list str) :
  json_safe generated_at ->
  Forall json_safe vpas ->
  exists items,
    loads (json_data generated_at vpas) = Some (Dict items)
    /\ getitem (u "vpas") items = Some (List (map Str vpas))
    /\ getitem (u "total_vpas") items = Some (Int (Z.of_nat (length vpas))).
Proof.
  intros Hg Hv.
  exists [ (u "generated_at", Str generated_at);
           (u "total_vpas", Int (Z.of_nat (length vpas)));
           (u "vpas", List (map Str vpas)) ].
  split; [|split; reflexivity].
  unfold loads.
  assert (Hs : skip_ws (json_data generated_at vpas) = json_data generated_at vpas).
  { by rewrite json_data_unfold. }
  rewrite Hs, scan_once_json_data; [done..|].
  pose proof (json_data_length generated_at vpas). lia.
Qed.

Lemma json_round_trip_witness :
  exists items,
    loads (json_data (u "2024-01-01T00:00:00.000000")
             [u "9876543210@paytm"; u "9876543210@ybl"]) = Some (Dict items)
    /\ getitem (u "vpas") items
       = Some (List [Str (u "9876543210@paytm"); Str (u "9876543210@ybl")])
    /\ getitem (u "total_vpas") items = Some (Int 2).
Proof.
  apply (json_round_trip (u "2024-01-01T00:00:00.000000")
           [u "9876543210@paytm"; u "9876543210@ybl"]).
  - by repeat constructor.
  - by repeat constructor.
Defined.

(** The document is the one that was written, for lists of Unicode text in
    particular. *)
Lemma json_round_trip_text (generated_at : str) (vpas : list str) :
  text generated_at -> Forall text vpas ->
  loads (json_data generated_at vpas) = Some (json_document generated_at vpas).
Proof.
  intros Hg Hv. unfold loads.
  assert (Hs : skip_ws (json_data generated_at vpas) = json_data generated_at vpas).
  { by rewrite json_data_unfold. }
  rewrite Hs, scan_once_json_data; [done| |..].
  - by apply text_json_safe.
  - eapply Forall_impl; [exact Hv|]. apply text_json_safe.
  - pose proof (json_data_length generated_at vpas). lia.
Qed.

(** Outside the hypothesis, on a [str] that no input of the script gives:
    the two surrogates U+D83D U+DE00 are written as two escapes, which are
    read back as the single character U+1F600. *)
Lemma json_joins_surrogate_pair :
  loads (json_data (u "2024-01-01T00:00:00.000000") [[0xD83D; 0xDE00]])
  = Some (json_document (u "2024-01-01T00:00:00.000000") [[0x1F600]])
  /\ getitem (u "vpas")
       [ (u "generated_at", Str (u "2024-01-01T00:00:00.000000"));
         (u "total_vpas", Int 1);
         (u "vpas", List [Str [0x1F600]]) ]
     <> Some (List (map Str [[0xD83D; 0xDE00]])).
Proof. split; [vm_compute; reflexivity|]. vm_compute. discriminate. Qed.

(** ** The order on strings *)

Lemma ltb_irrefl a : ltb a a = false.
Proof.
  induction a as [|x a IH]; [done|]. simpl.
  by rewrite N.ltb_irrefl, N.eqb_refl, IH.
Qed.

Lemma ltb_trans a b c : ltb a b = true -> ltb b c = true -> ltb a c = true.
Proof.
  revert b c. induction a as [|x a IH]; intros [|y b] [|z c]; simpl; try done.
  rewrite !orb_true_iff, !andb_true_iff, !N.ltb_lt, !N.eqb_eq.
  intros [Hxy|[-> Hab]] [Hyz|[-> Hbc]]; [left; lia|by left|by left|].
  right. split; [done|]. by eapply IH.
Qed.

Lemma ltb_total a b : ltb a b = false -> ltb b a = false -> a = b.
Proof.
  revert b. induction a as [|x a IH]; intros [|y b]; simpl; try done.
  rewrite !orb_false_iff, !andb_false_iff, !N.ltb_ge, !N.eqb_neq.
  intros [Hxy Hab] [Hyx Hba].
  assert (x = y) as -> by lia. f_equal. apply IH.
  - by destruct Hab.
  - by destruct Hba.
Qed.

Lemma ltb_asym a b : ltb a b = true -> ltb b a = false.
Proof.
  intros Hab. destruct (ltb b a) eqn:Hba; [|done].
  by rewrite <- (ltb_irrefl a), <- (ltb_trans a b a Hab Hba).
Qed.

Lemma ltb_cotrans a b c : ltb a c = true -> ltb a b = true \/ ltb b c = true.
Proof.
  intros Hac. destruct (ltb a b) eqn:Hab; [by left|right].
  destruct (ltb b a) eqn:Hba.
  - by eapply ltb_trans.
  - by rewrite <- (ltb_total a b Hab Hba).
Qed.

(** ** The sort is a stable ascending sort *)

Section StableSortFacts.
Context {A K : Type} `{!EqDecision K} (lt : K -> K -> bool).
Hypothesis lt_asym : forall a b, lt a b = true -> lt b a = false.
Hypothesis lt_cotrans : forall a b c, lt a c = true -> lt a b = true \/ lt b c = true.

Lemma insert_keyed_perm (x : K * A) l : insert_keyed lt x l ≡ₚ x :: l.
Proof.
  induction l as [|y l IH]; simpl; [done|].
  destruct (lt (fst y) (fst x)); [|done].
  by rewrite IH, Permutation_swap.
Qed.

Lemma sort_keyed_perm (l : list (K * A)) : sort_keyed lt l ≡ₚ l.
Proof.
  induction l as [|x l IH]; simpl; [done|].
  by rewrite insert_keyed_perm, IH.
Qed.

Lemma insert_keyed_ascending (x : K * A) l :
  ascending lt l -> ascending lt (insert_keyed lt x l).
Proof.
  unfold ascending. induction l as [|y l IH]; simpl; intros Hl.
  - by repeat constructor.
  - apply StronglySorted_cons in Hl as [Hy Hl].
    destruct (lt (fst y) (fst x)) eqn:Hyx.
    + apply StronglySorted_cons. split; [|by apply IH].
      rewrite insert_keyed_perm. constructor; [by apply lt_asym|done].
    + apply StronglySorted_cons. split; [|by apply StronglySorted_cons].
      constructor; [done|].
      eapply Forall_impl; [exact Hy|]. intros z Hz. simpl in Hz.
      destruct (lt (fst z) (fst x)) eqn:Hzx; [|done].
      destruct (lt_cotrans _ (fst y) _ Hzx); congruence.
Qed.

Lemma sort_keyed_ascending (l : list (K * A)) : ascending lt (sort_keyed lt l).
Proof.
  induction l as [|x l IH]; simpl; [constructor|].
  by apply insert_keyed_ascending.
Qed.

Lemma lt_irrefl a : lt a a = false.
Proof. destruct (lt a a) eqn:E; [|done]. by rewrite <- E, (lt_asym a a E). Qed.

Lemma insert_keyed_stable (k : K) (x : K * A) l :
  filter (fun p => fst p = k) (insert_keyed lt x l)
  = filter (fun p => fst p = k) (x :: l).
Proof.
  induction l as [|y l IH]; simpl; [done|].
  destruct (lt (fst y) (fst x)) eqn:Hyx; [|done].
  rewrite (filter_cons _ y), IH, !(filter_cons _ x), !(filter_cons _ y).
  destruct (decide (fst y = k)) as [Hy|Hy], (decide (fst x = k)) as [Hx|Hx];
    try done.
  rewrite Hy, Hx, lt_irrefl in Hyx. done.
Qed.

(** Elements with the same key keep their relative order. *)
Lemma sort_keyed_stable (k : K) (l : list (K * A)) :
  filter (fun p => fst p = k) (sort_keyed lt l) = filter (fun p => fst p = k) l.
Proof.
  induction l as [|x l IH]; simpl; [done|].
  by rewrite insert_keyed_stable, !filter_cons, IH.
Qed.

(** The three properties for [list_sort]: the result is a rearrangement of
    the list, its keys ascend, and the elements of each key are in their
    original order. *)
Lemma list_sort_spec (key : A -> option K) (l l' : list A) :
  list_sort lt key l = Some l' ->
  l' ≡ₚ l
  /\ StronglySorted
       (fun a b => forall ka kb, key a = Some ka -> key b = Some kb -> lt kb ka = false) l'
  /\ forall k, filter (fun a => key a = Some k) l' = filter (fun a => key a = Some k) l.
Proof.
  unfold list_sort. destruct (mapM key l) as [ks|] eqn:Hks; [|done].
  simpl. intros [= <-].
  apply mapM_Some in Hks.
  assert (Hlen : length ks = length l) by (symmetry; by eapply Forall2_length).
  assert (Hzip : Forall (fun p => key (snd p) = Some (fst p)) (zip ks l)).
  { clear Hlen. induction Hks; simpl; by constructor. }
  assert (Hsnd : (zip ks l).*2 = l) by (apply snd_zip; lia).
  assert (Hsorted : Forall (fun p => key (snd p) = Some (fst p)) (sort_keyed lt (zip ks l))).
  { by rewrite sort_keyed_perm. }
  split; [|split].
  - by rewrite sort_keyed_perm, Hsnd.
  - pose proof (sort_keyed_ascending (zip ks l)) as Hasc. unfold ascending in Hasc.
    induction Hasc as [|p kl Hkl IH Hp]; [constructor|].
    apply Forall_cons in Hsorted as [Hkp Hsorted].
    simpl. constructor; [by apply IH|].
    apply Forall_fmap. rewrite Forall_forall in Hp, Hsorted |- *.
    intros q Hq ka kb Ha Hb. simpl in *.
    rewrite Hkp in Ha. rewrite (Hsorted q Hq) in Hb.
    injection Ha as <-. injection Hb as <-. by apply Hp.
  - intros k. rewrite <- Hsnd at 2.
    assert (Hf : forall kl, Forall (fun p => key (snd p) = Some (fst p)) kl ->
              filter (fun a => key a = Some k) kl.*2
              = (filter (fun p : K * A => fst p = k) kl).*2).
    { induction 1 as [|p kl Hp _ IH]; [done|].
      rewrite fmap_cons, !filter_cons, IH, Hp.
      destruct (decide (Some (fst p) = Some k)) as [[= E]|E], (decide (fst p = k));
        try done. congruence. }
    by rewrite !Hf, sort_keyed_stable.
Qed.
End StableSortFacts.

(** The sort by handle: a rearrangement, ascending and stable for the key
    that the program computes. *)
Lemma sort_by_handle_spec (l l' : list str) :
  sort_vpas ByHandle l = Some l' ->
  l' ≡ₚ l
  /\ StronglySorted
       (fun a b => forall ka kb,
          handle_key a = Some ka -> handle_key b = Some kb -> ltb kb ka = false) l'
  /\ forall k, filter (fun a => handle_key a = Some k) l'
               = filter (fun a => handle_key a = Some k) l.
Proof. apply list_sort_spec; [apply ltb_asym|apply ltb_cotrans]. Qed.

(** * The rest of the script *)

(** ** The custom handles *)

Lemma in_list_true x l : in_list x l = true <-> x ∈ l.
Proof. unfold in_list. apply bool_decide_eq_true. Qed.

Lemma in_list_false x l : in_list x l = false <-> x ∉ l.
Proof. unfold in_list. apply bool_decide_eq_false. Qed.

Lemma truthy_true s : truthy s = true <-> s <> [].
Proof. by destruct s. Qed.

Lemma handles_ok_snoc l h :
  handles_ok l -> h <> [] -> h ∉ DEFAULT_HANDLES -> h ∉ l -> handles_ok (l ++ [h]).
Proof.
  intros [Hnd Hall] Hne Hdef Hnew. split.
  - apply NoDup_app. split; [done|]. split; [|apply NoDup_singleton].
    intros x Hx ->%list_elem_of_singleton. done.
  - apply Forall_app. split; [done|]. by repeat constructor.
Qed.

(** X1.  The "Add" button keeps the custom handles free of duplicates, of
    empty handles and of default handles.  It appends the handle, with the
    message "Added", exactly when the handle is not empty and is neither a
    default nor a custom handle yet; otherwise the session is unchanged and
    the message is "Enter a handle" for the empty handle and "Already
    exists" for a known one. *)
Theorem on_add_spec (new_handle : str) (st : session_state) :
  handles_ok (custom_handles st) ->
  handles_ok (custom_handles (fst (on_add new_handle st)))
  /\ ((new_handle <> [] /\ (new_handle ∉ DEFAULT_HANDLES)
       /\ (new_handle ∉ custom_handles st)
       /\ snd (on_add new_handle st) = AddedHandle new_handle
       /\ custom_handles (fst (on_add new_handle st))
          = custom_handles st ++ [new_handle])
      \/ (new_handle = [] /\ on_add new_handle st = (st, EnterAHandle))
      \/ (new_handle <> []
          /\ ((new_handle ∈ DEFAULT_HANDLES) \/ (new_handle ∈ custom_handles st))
          /\ on_add new_handle st = (st, AlreadyExists))).
Proof.
  intros Hok. unfold on_add.
  destruct (truthy new_handle) eqn:Ht.
  - apply truthy_true in Ht.
    destruct (in_list new_handle DEFAULT_HANDLES) eqn:Hd.
    + apply in_list_true in Hd. simpl. split; [done|]. right. right. auto.
    + apply in_list_false in Hd.
      destruct (in_list new_handle (custom_handles st)) eqn:Hc.
      * apply in_list_true in Hc. simpl. split; [done|]. right. right. auto.
      * apply in_list_false in Hc. simpl. split; [by apply handles_ok_snoc|].
        left. auto.
  - simpl. split; [done|]. right. left. split; [|done]. by destruct new_handle.
Qed.

Lemma on_add_spec_witness :
  custom_handles (fst (on_add (u "mybank1") empty_session)) = [u "mybank1"]
  /\ on_add (u "paytm") empty_session = (empty_session, AlreadyExists).
Proof.
  assert (Hok : handles_ok (custom_handles empty_session)).
  { split; constructor. }
  split.
  - destruct (on_add_spec (u "mybank1") empty_session Hok)
      as [_ [(_ & _ & _ & _ & E)|[[E _]|(_ & _ & E)]]].
    + exact E.
    + discriminate E.
    + apply (f_equal snd) in E. discriminate E.
  - destruct (on_add_spec (u "paytm") empty_session Hok)
      as [_ [(_ & _ & _ & E & _)|[[E _]|(_ & _ & E)]]].
    + discriminate E.
    + discriminate E.
    + exact E.
Defined.

(** X2.  Pressing "Add" a second time with the same handle changes
    nothing: the handle is in the list once at most. *)
Theorem on_add_twice (new_handle : str) (st : session_state) :
  fst (on_add new_handle (fst (on_add new_handle st))) = fst (on_add new_handle st)
  /\ snd (on_add new_handle (fst (on_add new_handle st))) <> AddedHandle new_handle.
Proof.
  unfold on_add.
  destruct (truthy new_handle) eqn:Ht,
    (in_list new_handle DEFAULT_HANDLES) eqn:Hd,
    (in_list new_handle (custom_handles st)) eqn:Hc;
    cbn [andb negb fst snd set_custom_handles custom_handles];
    rewrite ?Ht, ?Hd, ?Hc; cbn [andb negb fst snd]; try done.
  assert (Hin : in_list new_handle (custom_handles st ++ [new_handle]) = true).
  { apply in_list_true, elem_of_app. right. by apply list_elem_of_singleton. }
  by rewrite Hin.
Qed.

Lemma stripped_lines_nonempty s h : h ∈ stripped_lines s -> h <> [].
Proof.
  unfold stripped_lines. intros (x & -> & Hx)%list_elem_of_fmap.
  apply list_elem_of_filter in Hx as [Hx _]. by apply truthy_true.
Qed.

(** The loop of the bulk addition: it extends the list by new, distinct
    handles and counts them. *)
Lemma add_bulk_loop new_handles : forall custom added,
  exists extra,
    fold_left add_bulk_step new_handles (custom, added)
    = (custom ++ extra, (added + length extra)%nat)
    /\ NoDup extra
    /\ Forall (fun h => h ∈ new_handles /\ (h ∉ DEFAULT_HANDLES) /\ (h ∉ custom)) extra
    /\ Forall (fun h => (h ∈ DEFAULT_HANDLES) \/ (h ∈ custom ++ extra)) new_handles.
Proof.
  induction new_handles as [|h hs IH]; intros custom added.
  - exists []. rewrite app_nil_r, Nat.add_0_r. by repeat constructor.
  - cbn [fold_left]. unfold add_bulk_step at 2. cbn [fst snd].
    destruct (in_list h DEFAULT_HANDLES) eqn:Hd; cbn [negb andb].
    { apply in_list_true in Hd.
      destruct (IH custom added) as (extra & E & Hnd & Hall & Hcov).
      exists extra. split; [done|]. split; [done|]. split.
      - eapply Forall_impl; [exact Hall|].
        intros x (Hx & ? & ?). rewrite elem_of_cons. auto.
      - constructor; [by left|done]. }
    destruct (in_list h custom) eqn:Hc; cbn [negb andb].
    { apply in_list_true in Hc.
      destruct (IH custom added) as (extra & E & Hnd & Hall & Hcov).
      exists extra. split; [done|]. split; [done|]. split.
      - eapply Forall_impl; [exact Hall|].
        intros x (Hx & ? & ?). rewrite elem_of_cons. auto.
      - constructor; [|done]. right. apply elem_of_app. by left. }
    apply in_list_false in Hd, Hc.
    destruct (IH (custom ++ [h]) (S added)) as (extra & E & Hnd & Hall & Hcov).
    exists (h :: extra). rewrite E, <- app_assoc. cbn [app length].
    split; [f_equal; lia|]. rewrite Forall_forall in Hall. split; [|split].
    + constructor; [|done]. intros Hin.
      destruct (Hall h Hin) as (_ & _ & Hn). apply Hn, elem_of_app. right.
      by apply list_elem_of_singleton.
    + constructor.
      * split; [by left|done].
      * apply Forall_forall. intros x Hx. destruct (Hall x Hx) as (H1 & H2 & H3).
        split; [by right|]. split; [done|].
        intros Hin. apply H3, elem_of_app. by left.
    + constructor.
      * right. apply elem_of_app. right. by left.
      * eapply Forall_impl; [exact Hcov|]. intros x. by rewrite <- app_assoc.
Qed.

(** X3.  The "Add Bulk" button keeps the custom handles free of
    duplicates, of empty handles and of default handles.  The handles that
    were there stay in place, the new ones follow them, the number shown is
    the number of handles added, and every line of the text that is not
    blank is, trimmed, a default or a custom handle afterwards. *)
Theorem on_add_bulk_spec (bulk_handles : str) (st : session_state) :
  handles_ok (custom_handles st) ->
  bulk_handles <> [] ->
  exists extra added,
    on_add_bulk bulk_handles st
    = (set_custom_handles (custom_handles st ++ extra) st, Some (AddedBulk added))
    /\ added = length extra
    /\ handles_ok (custom_handles st ++ extra)
    /\ Forall (fun h => (h ∈ DEFAULT_HANDLES) \/ (h ∈ custom_handles st ++ extra))
         (stripped_lines bulk_handles).
Proof.
  intros [Hnd Hall] Hne. unfold on_add_bulk.
  rewrite (proj2 (truthy_true bulk_handles) Hne). cbv zeta.
  destruct (add_bulk_loop (stripped_lines bulk_handles) (custom_handles st) 0)
    as (extra & E & Hnde & Halle & Hcov).
  rewrite E. cbn [fst snd]. exists extra, (length extra).
  split; [done|]. split; [done|]. split; [|done].
  rewrite Forall_forall in Halle. split.
  - apply NoDup_app. split; [done|]. split; [|done].
    intros x Hx Hx'. by destruct (Halle x Hx') as (_ & _ & ?).
  - apply Forall_app. split; [done|]. apply Forall_forall. intros x Hx.
    destruct (Halle x Hx) as (Hin & Hd & _). split; [|done].
    by eapply stripped_lines_nonempty.
Qed.

Lemma on_add_bulk_spec_witness :
  exists extra added,
    on_add_bulk (u "mybank1" ++ [10] ++ u " paytm " ++ [10] ++ u "mybank1") empty_session
    = (set_custom_handles (custom_handles empty_session ++ extra) empty_session,
       Some (AddedBulk added))
    /\ added = length extra
    /\ handles_ok (custom_handles empty_session ++ extra)
    /\ Forall (fun h => (h ∈ DEFAULT_HANDLES) \/ (h ∈ custom_handles empty_session ++ extra))
         (stripped_lines (u "mybank1" ++ [10] ++ u " paytm " ++ [10] ++ u "mybank1")).
Proof.
  apply on_add_bulk_spec.
  - split; constructor.
  - discriminate.
Defined.

(** X4.  The delete button of the custom handle at index [i] removes that
    handle and no other: the list is one shorter, the handles before [i]
    keep their index, those after it move down by one, and the list stays
    free of duplicates, of empty handles and of default handles.  An index
    out of range raises. *)
Theorem on_delete_spec (i : nat) (st : session_state) :
  handles_ok (custom_handles st) ->
  (length (custom_handles st) <= i -> on_delete i st = None)%nat
  /\ ((i < length (custom_handles st))%nat ->
      exists st',
        on_delete i st = Some st'
        /\ S (length (custom_handles st')) = length (custom_handles st)
        /\ handles_ok (custom_handles st')
        /\ (forall j, (j < i)%nat -> custom_handles st' !! j = custom_handles st !! j)
        /\ (forall j, (i <= j)%nat ->
              custom_handles st' !! j = custom_handles st !! S j)
        /\ vpas st' = vpas st /\ history st' = history st).
Proof.
  intros [Hnd Hall]. unfold on_delete. split.
  - intros Hi. case_decide; [lia|done].
  - intros Hi. case_decide; [|lia]. eexists. split; [done|].
    cbn [set_custom_handles custom_handles vpas history].
    split; [|split; [|split; [|split]]].
    + rewrite length_delete; [lia|]. by apply lookup_lt_is_Some.
    + split.
      * eapply sublist_NoDup; [exact Hnd|apply sublist_delete].
      * by apply Forall_delete.
    + intros j Hj. by apply list_lookup_delete_lt.
    + intros j Hj. by apply list_lookup_delete_ge.
    + done.
Qed.

Lemma on_delete_spec_witness :
  exists st',
    on_delete 0 (set_custom_handles [u "mybank1"; u "mybank2"] empty_session) = Some st'
    /\ custom_handles st' !! 0%nat = Some (u "mybank2").
Proof.
  assert (Hok : handles_ok (custom_handles
                  (set_custom_handles [u "mybank1"; u "mybank2"] empty_session))).
  { split.
    - apply (bool_decide_unpack _). vm_compute. exact I.
    - repeat constructor; try discriminate;
        apply (bool_decide_unpack _); vm_compute; exact I. }
  destruct (proj2 (on_delete_spec 0 _ Hok)) as (st' & E & _ & _ & _ & Hge & _).
  - simpl. lia.
  - exists st'. split; [exact E|]. rewrite (Hge 0%nat); [reflexivity|lia].
Defined.

Lemma DEFAULT_HANDLES_NoDup : NoDup DEFAULT_HANDLES.
Proof. apply (bool_decide_unpack _). vm_compute. exact I. Qed.

(** X5.  With "Select All Handles" ticked, the handles selected are the
    default handles followed, when their checkbox is ticked, by the custom
    handles; as long as the custom handles are those that the "Custom" tab
    admits, no handle is selected twice. *)
Theorem select_all_NoDup (multiselect : list str) (add_custom : bool)
    (st : session_state) :
  handles_ok (custom_handles st) ->
  select_handles true multiselect add_custom st
  = DEFAULT_HANDLES ++ (if add_custom then custom_handles st else [])
  /\ NoDup (select_handles true multiselect add_custom st).
Proof.
  intros [Hnd Hall].
  assert (E : select_handles true multiselect add_custom st
              = DEFAULT_HANDLES ++ (if add_custom then custom_handles st else [])).
  { unfold select_handles. cbv zeta.
    destruct (custom_handles st), add_custom; by rewrite ?app_nil_r. }
  split; [done|]. rewrite E. apply NoDup_app.
  split; [apply DEFAULT_HANDLES_NoDup|]. split.
  - intros x Hx Hx'. destruct add_custom; [|by apply elem_of_nil in Hx'].
    rewrite Forall_forall in Hall. by destruct (Hall x Hx').
  - destruct add_custom; [done|constructor].
Qed.

Lemma select_all_NoDup_witness :
  NoDup (select_handles true [] true (set_custom_handles [u "mybank1"] empty_session)).
Proof.
  apply (select_all_NoDup [] true (set_custom_handles [u "mybank1"] empty_session)).
  split.
  - apply (bool_decide_unpack _). vm_compute. exact I.
  - repeat constructor; try discriminate.
    apply (bool_decide_unpack _). vm_compute. exact I.
Defined.

(** ** The history tab *)

(** X6.  The history tab shows the last five records at most, the newest
    first, and the number shown with a record is its position in the
    history, counted from one. *)
Theorem history_view_spec (h : list GenerationRecord) :
  length (history_view h) = Nat.min 5 (length h)
  /\ forall j k r,
       history_view h !! j = Some (k, r) ->
       k = (length h - j)%nat /\ (j < 5)%nat /\ (1 <= k)%nat
       /\ h !! (k - 1)%nat = Some r.
Proof.
  unfold history_view. split.
  - rewrite length_imap, length_reverse, length_drop. lia.
  - intros j k r. rewrite list_lookup_imap.
    destruct (reverse (drop (length h - 5) h) !! j) as [r'|] eqn:E; [|done].
    intros [= <- <-].
    apply reverse_lookup_Some in E as [E Hj].
    rewrite length_drop in E, Hj. rewrite lookup_drop in E.
    split; [done|]. split; [lia|]. split; [lia|].
    rewrite <- E. f_equal. lia.
Qed.

Lemma history_view_spec_witness :
  let r1 := {| timestamp := u "2024-01-01 00:00:00"; phone_count := 1;
               handle_count := 2; vpas_count := 2 |} in
  let r2 := {| timestamp := u "2024-01-01 00:05:00"; phone_count := 3;
               handle_count := 1; vpas_count := 3 |} in
  history_view [r1; r2] !! 0%nat = Some (2%nat, r2)
  /\ [r1; r2] !! (2 - 1)%nat = Some r2.
Proof.
  intros r1 r2.
  assert (E : history_view [r1; r2] !! 0%nat = Some (2%nat, r2)) by reflexivity.
  split; [exact E|].
  exact (proj2 (proj2 (proj2 (proj2 (history_view_spec [r1; r2]) 0%nat 2%nat r2 E)))).
Defined.

(** ** The phone numbers read *)

Lemma contains_true c s : contains c s = true <-> c ∈ s.
Proof.
  unfold contains. rewrite existsb_exists. split.
  - intros (x & Hx & ->%N.eqb_eq). by apply list_elem_of_In.
  - intros Hc. exists c. split; [by apply list_elem_of_In|apply N.eqb_refl].
Qed.

Lemma contains_false c s : contains c s = false <-> c ∉ s.
Proof.
  rewrite <- contains_true. destruct (contains c s); split; intros; congruence.
Qed.

Lemma lstrip_sublist s : lstrip s `sublist_of` s.
Proof.
  induction s as [|c s IH]; simpl; [done|].
  destruct (isspace_char c); [by apply sublist_cons|done].
Qed.

Lemma rstrip_sublist s : rstrip s `sublist_of` s.
Proof.
  induction s as [|c s IH]; simpl; [done|].
  destruct (rstrip s) eqn:E.
  - destruct (isspace_char c).
    + by apply sublist_cons.
    + by apply sublist_skip.
  - by apply sublist_skip.
Qed.

Lemma strip_sublist s : strip s `sublist_of` s.
Proof. unfold strip. etrans; [apply rstrip_sublist|apply lstrip_sublist]. Qed.

Lemma strip_contains c s : contains c s = false -> contains c (strip s) = false.
Proof.
  rewrite !contains_false. intros Hs Hc. apply Hs.
  eapply elem_of_sublist; [exact Hc|apply strip_sublist].
Qed.

Lemma rstrip_idem s : rstrip (rstrip s) = rstrip s.
Proof.
  induction s as [|c s IH]; simpl; [done|].
  destruct (rstrip s) as [|x r] eqn:E.
  - destruct (isspace_char c) eqn:Hc; simpl; [done|]. by rewrite Hc.
  - change (rstrip (c :: x :: r))
      with (match rstrip (x :: r) with
            | [] => if isspace_char c then [] else [c]
            | y :: r' => c :: y :: r'
            end).
    by rewrite IH.
Qed.

Lemma lstrip_head s :
  lstrip s = [] \/ exists c r, lstrip s = c :: r /\ isspace_char c = false.
Proof.
  induction s as [|c s IH]; simpl; [by left|].
  destruct (isspace_char c) eqn:Hc; [done|]. right. by exists c, s.
Qed.

Lemma rstrip_cons c s :
  isspace_char c = false -> exists r, rstrip (c :: s) = c :: r.
Proof. intros Hc. simpl. rewrite Hc. destruct (rstrip s); by eexists. Qed.

(** Trimming twice is trimming once. *)
Lemma strip_idem s : strip (strip s) = strip s.
Proof.
  unfold strip. destruct (lstrip_head s) as [->|(c & r & -> & Hc)]; [done|].
  destruct (rstrip_cons c r Hc) as [r' E]. rewrite E.
  cbn [lstrip]. rewrite Hc, <- E. apply rstrip_idem.
Qed.

Lemma split_pieces sep s : Forall (fun p => contains sep p = false) (split sep s).
Proof.
  induction s as [|c s IH]; simpl; [by repeat constructor|].
  destruct (c =? sep) eqn:E.
  - constructor; [done|exact IH].
  - destruct (split sep s) as [|p ps].
    + constructor; [|constructor]. simpl. by rewrite (N.eqb_sym sep c), E.
    + inversion IH; subst. constructor; [|done].
      simpl. by rewrite (N.eqb_sym sep c), E.
Qed.

(** X7.  Every number read from the text area is a line of the text,
    trimmed: it is not empty, has no line break and no whitespace at either
    end, so that it validates exactly when it has ten characters that are
    all digits. *)
Theorem text_area_numbers_spec (phone_input t : str) :
  t ∈ text_area_numbers phone_input ->
  t <> [] /\ contains 10 t = false /\ strip t = t
  /\ (exists line, line ∈ split 10 phone_input /\ t = strip line)
  /\ validate_phone_number t = (length t =? 10)%nat && isdigit t.
Proof.
  unfold text_area_numbers. intros Ht.
  assert (Hs : t ∈ stripped_lines phone_input).
  { destruct (truthy phone_input); [done|by apply elem_of_nil in Ht]. }
  clear Ht. pose proof (stripped_lines_nonempty _ _ Hs) as Hne.
  unfold stripped_lines in Hs. apply list_elem_of_fmap in Hs as (line & -> & Hl).
  apply list_elem_of_filter in Hl as [_ Hl].
  pose proof (split_pieces 10 phone_input) as Hp. rewrite Forall_forall in Hp.
  split; [done|]. split; [by apply strip_contains, Hp|].
  split; [apply strip_idem|]. split; [by exists line|].
  unfold validate_phone_number, len. cbv zeta. by rewrite strip_idem.
Qed.

Lemma text_area_numbers_spec_witness :
  validate_phone_number (u "9876543210")
  = (length (u "9876543210") =? 10)%nat && isdigit (u "9876543210").
Proof.
  apply (text_area_numbers_spec (u "  9876543210 " ++ [13; 10; 10] ++ u "12")).
  apply (bool_decide_unpack _). vm_compute. exact I.
Defined.

Lemma split_first sep s :
  exists p ps,
    split sep s = p :: ps /\ contains sep p = false
    /\ (s = p \/ exists rest, s = p ++ sep :: rest).
Proof.
  induction s as [|c s (p & ps & E & Hp & Hs)]; simpl.
  - exists [], []. auto.
  - destruct (c =? sep) eqn:Ec.
    + apply N.eqb_eq in Ec as ->. exists [], (split sep s).
      split; [done|]. split; [done|]. right. by exists s.
    + rewrite E. exists (c :: p), ps. split; [done|]. split.
      * simpl. by rewrite (N.eqb_sym sep c), Ec.
      * destruct Hs as [->|[rest ->]]; [by left|right; by exists rest].
Qed.

(** X8.  Every number read from an uploaded file is the first
    comma-separated field of a line that is not blank, the line being
    trimmed first: it has no comma, no line break and no whitespace in
    front (it can have some behind, and it can be empty). *)
Theorem file_numbers_spec (content t : str) :
  t ∈ file_numbers content ->
  contains 44 t = false /\ contains 10 t = false /\ lstrip t = t
  /\ exists line,
       line ∈ split 10 content /\ strip line <> []
       /\ (strip line = t \/ exists rest, strip line = t ++ 44 :: rest).
Proof.
  unfold file_numbers. intros (line & -> & Hl)%list_elem_of_fmap.
  apply list_elem_of_filter in Hl as [Hne Hl]. apply truthy_true in Hne.
  pose proof (split_pieces 10 content) as Hp. rewrite Forall_forall in Hp.
  specialize (Hp line Hl). apply strip_contains in Hp.
  unfold first_field.
  destruct (split_first 44 (strip line)) as (p & ps & -> & Hcomma & Hs).
  assert (Hsub : p `sublist_of` strip line).
  { destruct Hs as [<-|[rest ->]]; [done|]. by apply sublist_inserts_r. }
  split; [done|]. split; [|split].
  - apply contains_false. intros Hc. apply contains_false in Hp. apply Hp.
    eapply elem_of_sublist; [exact Hc|exact Hsub].
  - destruct p as [|c p]; [done|]. simpl.
    assert (Hc : isspace_char c = false).
    { unfold strip in Hs.
      destruct (lstrip_head line) as [E|(c' & r & E & Hc')].
      - rewrite E in Hs. simpl in Hs. by destruct Hs as [?|[? ?]].
      - rewrite E in Hs. destruct (rstrip_cons c' r Hc') as [r' E'].
        rewrite E' in Hs. by destruct Hs as [[= -> _]|[? [= -> _]]]. }
    by rewrite Hc.
  - exists line. split; [done|]. split; [done|].
    destruct Hs as [->|[rest ->]]; [by left|right; by exists rest].
Qed.

Lemma file_numbers_spec_witness :
  contains 44 (u "9876543210") = false
  /\ lstrip (u "9876543210") = u "9876543210".
Proof.
  assert (Hin : u "9876543210" ∈ file_numbers (u " 9876543210,John" ++ [10] ++ u "12 ,x")).
  { apply (bool_decide_unpack _). vm_compute. exact I. }
  destruct (file_numbers_spec _ _ Hin) as (H1 & _ & H2 & _). by split.
Defined.

(** X9.  The validation summary splits the numbers read into the valid and
    the invalid ones: every number is in one of the two lists, in the order
    read, and the two counts add up to the number of numbers read. *)
Theorem summary_partition (phone_numbers : list str) :
  (length (valid_summary phone_numbers) + length (invalid_summary phone_numbers)
   = length phone_numbers)%nat
  /\ valid_summary phone_numbers ++ invalid_summary phone_numbers ≡ₚ phone_numbers
  /\ valid_summary phone_numbers `sublist_of` phone_numbers
  /\ invalid_summary phone_numbers `sublist_of` phone_numbers
  /\ all_valid (valid_summary phone_numbers).
Proof.
  unfold valid_summary, invalid_summary, all_valid.
  split; [|split; [|split; [|split]]].
  - induction phone_numbers as [|n ns IH]; [done|].
    rewrite !filter_cons. destruct (validate_phone_number n);
      repeat case_decide; try done; simpl; lia.
  - induction phone_numbers as [|n ns IH]; [done|].
    rewrite !filter_cons. destruct (validate_phone_number n);
      repeat case_decide; try done; simpl.
    + by rewrite IH.
    + by rewrite <- Permutation_middle, IH.
  - apply sublist_filter.
  - apply sublist_filter.
  - apply Forall_forall. intros n Hn. by apply list_elem_of_filter in Hn as [? _].
Qed.

(** ** The identifiers generated *)

Lemma generate_vpas_length_valid ns hs fmt :
  length (generate_vpas ns hs fmt)
  = (length (valid_summary ns) * length hs)%nat.
Proof.
  rewrite generate_vpas_filter. apply generate_vpas_length.
  apply Forall_forall. intros n Hn. by apply list_elem_of_filter in Hn as [? _].
Qed.

Lemma generate_vpas_length_le ns hs fmt :
  (length (generate_vpas ns hs fmt) <= length ns * length hs)%nat.
Proof.
  rewrite generate_vpas_length_valid. apply Nat.mul_le_mono_r.
  unfold valid_summary. apply length_filter.
Qed.

Lemma generate_vpas_no_handles ns fmt : generate_vpas ns [] fmt = [].
Proof.
  apply length_zero_iff_nil. rewrite generate_vpas_length_valid. simpl. lia.
Qed.

Lemma elem_of_generate_vpas ns hs fmt x :
  x ∈ generate_vpas ns hs fmt
  <-> exists n h, n ∈ ns /\ validate_phone_number n = true /\ h ∈ hs
                  /\ x = format_vpa fmt n h.
Proof.
  induction ns as [|n ns IH].
  - split; [by intros ?%elem_of_nil|]. by intros (? & ? & ?%elem_of_nil & _).
  - rewrite generate_vpas_cons, elem_of_app, IH. unfold vpas_of. split.
    + intros [Hx|(n' & h & Hn' & Hv & Hh & ->)].
      * destruct (validate_phone_number n) eqn:Hv; [|by apply elem_of_nil in Hx].
        apply list_elem_of_fmap in Hx as (h & -> & Hh).
        exists n, h. split; [by left|done].
      * exists n', h. split; [by right|done].
    + intros (n' & h & Hn' & Hv & Hh & ->).
      apply elem_of_cons in Hn' as [->|Hn'].
      * left. rewrite Hv. apply list_elem_of_fmap. by exists h.
      * right. by exists n', h.
Qed.

(** X10.  For any list of tokens, valid or not, [generate_vpas] returns as
    many identifiers as there are valid tokens times handles, never more
    than tokens times handles; without numbers or without handles the
    result is the empty list, not an error. *)
Theorem generate_vpas_size (ns hs : list str) (fmt : option str) :
  length (generate_vpas ns hs fmt) = (length (valid_summary ns) * length hs)%nat
  /\ (length (generate_vpas ns hs fmt) <= length ns * length hs)%nat
  /\ generate_vpas [] hs fmt = []
  /\ generate_vpas ns [] fmt = [].
Proof.
  split; [apply generate_vpas_length_valid|].
  split; [apply generate_vpas_length_le|].
  split; [done|apply generate_vpas_no_handles].
Qed.

(** A valid number has no ['@']. *)
Lemma valid_no_at n : validate_phone_number n = true -> contains at_sign n = false.
Proof.
  intros [_ Hall]%valid_digit_or_space. apply contains_false. intros Hin.
  rewrite Forall_forall in Hall. by specialize (Hall _ Hin).
Qed.

(** With the default template, the identifier tells the number and the
    handle. *)
Lemma format_vpa_default_inj n h n' h' :
  contains at_sign n = false -> contains at_sign n' = false ->
  format_vpa None n h = format_vpa None n' h' -> n = n' /\ h = h'.
Proof.
  intros Hn Hn' E. rewrite !format_vpa_default in E.
  assert (Hs : split at_sign (n ++ at_sign :: h) = split at_sign (n' ++ at_sign :: h'))
    by (by rewrite E).
  rewrite !split_app_sep in Hs by done. injection Hs as -> _.
  split; [done|]. apply app_inv_head in E. by injection E.
Qed.

Lemma generate_vpas_default_NoDup ns hs :
  all_valid ns -> NoDup ns -> NoDup hs -> NoDup (generate_vpas ns hs None).
Proof.
  intros Hv Hns Hhs. induction Hns as [|n ns Hn Hns IH]; [constructor|].
  inversion Hv as [|? ? Hvn Hvns]; subst.
  rewrite generate_vpas_cons. unfold vpas_of. rewrite Hvn.
  apply NoDup_app. split; [|split; [|by apply IH]].
  - apply NoDup_fmap_2; [|done]. intros h h' E.
    by apply format_vpa_default_inj in E as [_ ?]; [|by apply valid_no_at..].
  - intros x (h & -> & Hh)%list_elem_of_fmap Hx.
    apply elem_of_generate_vpas in Hx as (n' & h' & Hn' & Hv' & _ & E).
    apply format_vpa_default_inj in E as [-> _]; [done|by apply valid_no_at..].
Qed.

(** X11.  The identifiers generated are exactly those of the pairs of a
    valid token and a handle.  With the default template the identifier
    tells its number and its handle, so distinct valid numbers and distinct
    handles give identifiers without duplicates. *)
Theorem generate_vpas_elements (ns hs : list str) (fmt : option str) :
  (forall x, x ∈ generate_vpas ns hs fmt
     <-> exists n h, n ∈ ns /\ validate_phone_number n = true /\ h ∈ hs
                     /\ x = format_vpa fmt n h)
  /\ (forall n h n' h',
        validate_phone_number n = true -> validate_phone_number n' = true ->
        format_vpa None n h = format_vpa None n' h' -> n = n' /\ h = h')
  /\ (all_valid ns -> NoDup ns -> NoDup hs -> NoDup (generate_vpas ns hs None)).
Proof.
  split; [apply elem_of_generate_vpas|]. split.
  - intros n h n' h' Hn Hn'. apply format_vpa_default_inj; by apply valid_no_at.
  - apply generate_vpas_default_NoDup.
Qed.

Lemma generate_vpas_elements_witness :
  NoDup (generate_vpas [u "9876543210"; u "9123456789"] [u "paytm"; u "ybl"] None).
Proof.
  apply (proj2 (proj2 (generate_vpas_elements
                  [u "9876543210"; u "9123456789"] [u "paytm"; u "ybl"] None))).
  - repeat constructor.
  - apply (bool_decide_unpack _). vm_compute. exact I.
  - apply (bool_decide_unpack _). vm_compute. exact I.
Defined.

(** ** The sort options *)

Lemma sort_vpas_perm o l l' : sort_vpas o l = Some l' -> l' ≡ₚ l.
Proof.
  destruct o; simpl.
  - by intros [= ->].
  - intros H. by apply (list_sort_spec ltb ltb_asym ltb_cotrans) in H as [? _].
  - intros H. by apply (list_sort_spec ltb ltb_asym ltb_cotrans) in H as [? _].
  - intros H. by apply (list_sort_spec ltb ltb_asym ltb_cotrans) in H as [? _].
Qed.

Lemma sort_vpas_Some o l : exists l', sort_vpas o l = Some l' /\ l' ≡ₚ l.
Proof.
  destruct (sort_vpas_total o l) as [l' E]. exists l'. split; [done|].
  by eapply sort_vpas_perm.
Qed.

(** X12.  "Alphabetically" never fails; it returns the same identifiers,
    each as often as before, in an order in which no identifier is
    followed by a smaller one, and it leaves a list in that order as it
    is. *)
Theorem sort_alphabetically_spec (l : list str) :
  exists l',
    sort_vpas Alphabetically l = Some l'
    /\ l' ≡ₚ l
    /\ StronglySorted (fun a b => ltb b a = false) l'
    /\ sort_vpas Alphabetically l' = Some l'.
Proof.
  destruct (sort_vpas_total Alphabetically l) as [l' E]. exists l'.
  pose proof E as (Hperm & Hsorted & _)%(list_sort_spec ltb ltb_asym ltb_cotrans).
  assert (Hs : StronglySorted (fun a b => ltb b a = false) l').
  { clear -Hsorted. induction Hsorted as [|a l' _ IH Ha]; constructor; [done|].
    eapply Forall_impl; [exact Ha|]. intros b Hb. by apply Hb. }
  split; [done|]. split; [done|]. split; [done|].
  clear -Hs. simpl. unfold list_sort.
  assert (Hm : mapM (@Some str) l' = Some l').
  { clear. induction l' as [|a l' IH]; [done|]. cbn. by rewrite IH. }
  rewrite Hm. simpl. f_equal. clear Hm.
  induction Hs as [|a l' _ IH Ha]; [done|].
  cbn [zip zip_with sort_keyed foldr]. fold (sort_keyed ltb (zip l' l')).
  assert (Hins : forall kl : list (str * str),
            Forall (fun p => ltb (fst p) a = false) kl ->
            insert_keyed ltb (a, a) kl = (a, a) :: kl).
  { intros [|p kl] Hkl; [done|]. inversion Hkl; subst. simpl. by destruct (ltb p.1 a). }
  assert (Hperm : sort_keyed ltb (zip l' l') ≡ₚ zip l' l') by apply sort_keyed_perm.
  rewrite Hins.
  - rewrite fmap_cons. cbn [snd]. by rewrite IH.
  - rewrite Hperm. clear -Ha. induction Ha as [|b l' Hb _ IH]; constructor; done.
Qed.

(** The key of the sort by phone number, for an identifier of a number
    without ['@']. *)
Lemma number_key_app n rest :
  contains at_sign n = false -> number_key (n ++ at_sign :: rest) = Some n.
Proof. intros Hn. unfold number_key. by rewrite split_app_sep. Qed.

(** X13.  "By Phone Number" never fails; it returns the same identifiers
    in ascending order of the part before the first ['@'], identifiers with
    the same part staying in the order they had; for every identifier built
    from a valid number that part is the number. *)
Theorem sort_by_number_spec (l : list str) :
  (exists l',
     sort_vpas ByPhoneNumber l = Some l'
     /\ l' ≡ₚ l
     /\ StronglySorted
          (fun a b => forall ka kb,
             number_key a = Some ka -> number_key b = Some kb -> ltb kb ka = false) l'
     /\ forall k, filter (fun a => number_key a = Some k) l'
                  = filter (fun a => number_key a = Some k) l)
  /\ forall n h, validate_phone_number n = true ->
       number_key (format_vpa None n h) = Some n.
Proof.
  split.
  - destruct (sort_vpas_total ByPhoneNumber l) as [l' E]. exists l'.
    split; [done|]. by apply (list_sort_spec ltb ltb_asym ltb_cotrans) in E.
  - intros n h Hn. rewrite format_vpa_default. by apply number_key_app, valid_no_at.
Qed.

Lemma sort_by_number_spec_witness :
  number_key (format_vpa None (u "9876543210") (u "paytm")) = Some (u "9876543210").
Proof.
  apply (proj2 (sort_by_number_spec [])). reflexivity.
Defined.

(** ** What a generation stores *)

Lemma list_set_NoDup l : NoDup (list_set l).
Proof. unfold list_set. apply NoDup_elements. Qed.

Lemma elem_of_list_set x l : x ∈ list_set l <-> x ∈ l.
Proof. unfold list_set. by rewrite elem_of_elements, elem_of_list_to_set. Qed.

Lemma list_set_perm l : NoDup l -> list_set l ≡ₚ l.
Proof. unfold list_set. apply elements_list_to_set. Qed.

Lemma replace_empty s : replace [] [] s = s.
Proof. simp replace. simpl. induction s as [|c s IH]; simpl; by rewrite ?IH. Qed.

Lemma decorated_numbers_length i :
  length (decorated_numbers i) = length (valid_summary (phone_numbers i)).
Proof. by rewrite decorated_numbers_map, length_map. Qed.

Lemma decorated_numbers_plain i :
  add_prefix i = [] -> add_suffix i = [] ->
  decorated_numbers i = valid_summary (phone_numbers i).
Proof.
  intros Hp Hs. rewrite decorated_numbers_map, Hp, Hs.
  etrans; [|apply map_id]. apply map_ext. intros n. by rewrite app_nil_r.
Qed.

(** The run of the handler when there are numbers and handles. *)
Lemma on_generate_run (i : inputs) (st st' : session_state) :
  on_generate i st = Some (st', []) ->
  phone_numbers i <> [] /\ selected_handles i <> []
  /\ custom_handles st' = custom_handles st
  /\ sort_vpas (sort_choice i)
       (if remove_duplicates i then list_set (generated i) else generated i)
     = Some (vpas st')
  /\ valid_numbers st'
     = Some (map (fun num => replace (add_suffix i) [] (replace (add_prefix i) [] num))
               (decorated_numbers i))
  /\ history st'
     = history st ++
       [ {| timestamp := now i;
            phone_count := length (decorated_numbers i);
            handle_count := length (selected_handles i);
            vpas_count := length (vpas st') |} ].
Proof.
  unfold on_generate, generated.
  destruct (phone_numbers i) as [|p ps] eqn:Ep; [done|].
  destruct (selected_handles i) as [|h hs] eqn:Eh; [by destruct ps|].
  cbv zeta.
  match goal with
  | |- context [sort_vpas ?o ?l] => destruct (sort_vpas o l) as [vs|] eqn:Es
  end; [|done].
  simpl. intros [= <-]. simpl. done.
Qed.

Lemma history_view_last (h : list GenerationRecord) (r : GenerationRecord) :
  history_view (h ++ [r]) !! 0%nat = Some (length (h ++ [r]), r).
Proof.
  unfold history_view. rewrite list_lookup_imap, reverse_lookup.
  - rewrite lookup_drop, length_drop, length_app. simpl.
    replace (length h + 1 - 5 + (length h + 1 - (length h + 1 - 5) - 1))%nat
      with (length h + 0)%nat by lia.
    rewrite lookup_app_r by lia.
    replace (length h + 0 - length h)%nat with 0%nat by lia.
    simpl. by rewrite Nat.sub_0_r.
  - rewrite length_drop, length_app. simpl. lia.
Qed.

(** X14.  A generation that goes through appends one record with the time,
    the number of valid numbers, the number of selected handles and the
    number of identifiers stored, which is never more than the product of
    the other two.  The record is the first one shown in the history tab,
    with the new size of the history as its number; the custom handles are
    not touched, and as many numbers are stored as were valid. *)
Theorem on_generate_record (i : inputs) (st st' : session_state) :
  on_generate i st = Some (st', []) ->
  exists r,
    history st' = history st ++ [r]
    /\ timestamp r = now i
    /\ phone_count r = length (valid_summary (phone_numbers i))
    /\ handle_count r = length (selected_handles i)
    /\ vpas_count r = length (vpas st')
    /\ (vpas_count r <= phone_count r * handle_count r)%nat
    /\ history_view (history st') !! 0%nat = Some (length (history st'), r)
    /\ custom_handles st' = custom_handles st
    /\ exists vn, valid_numbers st' = Some vn /\ length vn = phone_count r.
Proof.
  intros (_ & _ & Hc & Hsort & Hvn & Hh)%on_generate_run.
  eexists. split; [exact Hh|]. cbn [timestamp phone_count handle_count vpas_count].
  split; [done|]. split; [apply decorated_numbers_length|]. split; [done|].
  split; [done|]. split; [|split; [|split]].
  - apply sort_vpas_perm in Hsort. rewrite Hsort.
    etrans; [|apply (generate_vpas_length_le _ _ (custom_format i))].
    destruct (remove_duplicates i); [apply list_set_length|done].
  - rewrite Hh. apply history_view_last.
  - done.
  - eexists. split; [exact Hvn|]. by rewrite length_map.
Qed.

Lemma on_generate_record_witness :
  exists st' r,
    on_generate two_at_inputs empty_session = Some (st', [])
    /\ history st' = history empty_session ++ [r]
    /\ vpas_count r = 2%nat.
Proof.
  assert (E : exists st', on_generate two_at_inputs empty_session = Some (st', [])
                          /\ length (vpas st') = 2%nat).
  { eexists. split; vm_compute; reflexivity. }
  destruct E as (st' & E & Hl).
  destruct (on_generate_record two_at_inputs empty_session st' E)
    as (r & Hh & _ & _ & _ & Hv & _).
  exists st', r. split; [exact E|]. split; [exact Hh|]. by rewrite Hv.
Defined.

(** X15.  Without prefix and suffix, a generation stores the valid numbers
    as they were read, and the identifiers of [generate_vpas] on the
    numbers read: the same identifiers, whatever the options; each as often
    as generated when duplicates are kept; each once when they are removed,
    and then "Unique VPAs" is "Total VPAs". *)
Theorem on_generate_plain (i : inputs) (st st' : session_state) :
  add_prefix i = [] -> add_suffix i = [] ->
  on_generate i st = Some (st', []) ->
  valid_numbers st' = Some (valid_summary (phone_numbers i))
  /\ (forall x, x ∈ vpas st'
        <-> x ∈ generate_vpas (phone_numbers i) (selected_handles i) (custom_format i))
  /\ (remove_duplicates i = false ->
      vpas st' ≡ₚ generate_vpas (phone_numbers i) (selected_handles i) (custom_format i))
  /\ (remove_duplicates i = true ->
      NoDup (vpas st') /\ unique_count (vpas st') = length (vpas st')).
Proof.
  intros Hp Hs (_ & _ & _ & Hsort & Hvn & _)%on_generate_run.
  assert (Hg : generated i
               = generate_vpas (phone_numbers i) (selected_handles i) (custom_format i)).
  { unfold generated. rewrite decorated_numbers_plain by done.
    symmetry. apply generate_vpas_filter. }
  rewrite Hg in Hsort. apply sort_vpas_perm in Hsort.
  split; [|split; [|split]].
  - rewrite Hvn, Hp, Hs, decorated_numbers_plain by done. f_equal.
    etrans; [|apply map_id]. apply map_ext. intros n. by rewrite !replace_empty.
  - intros x. rewrite Hsort. destruct (remove_duplicates i); [|done].
    apply elem_of_list_set.
  - intros Hr. by rewrite Hr in Hsort.
  - intros Hr. rewrite Hr in Hsort.
    assert (Hnd : NoDup (vpas st')) by (rewrite Hsort; apply list_set_NoDup).
    split; [done|]. unfold unique_count. by rewrite list_set_perm.
Qed.

Lemma on_generate_plain_witness :
  exists st',
    on_generate two_at_inputs empty_session = Some (st', [])
    /\ valid_numbers st' = Some (valid_summary (phone_numbers two_at_inputs)).
Proof.
  assert (E : exists st', on_generate two_at_inputs empty_session = Some (st', [])).
  { eexists. vm_compute. reflexivity. }
  destruct E as (st' & E). exists st'. split; [exact E|].
  apply (on_generate_plain two_at_inputs empty_session st'); [reflexivity..|exact E].
Defined.

(** X16.  Without prefix and suffix and with the default template, valid
    numbers that are all different and handles that are all different give
    one identifier per pair, whatever the other options: the number stored
    is the number of valid numbers times the number of handles, and no
    identifier is stored twice. *)
Theorem on_generate_distinct (i : inputs) (st st' : session_state) :
  add_prefix i = [] -> add_suffix i = [] -> custom_format i = None ->
  NoDup (valid_summary (phone_numbers i)) -> NoDup (selected_handles i) ->
  on_generate i st = Some (st', []) ->
  length (vpas st')
  = (length (valid_summary (phone_numbers i)) * length (selected_handles i))%nat
  /\ NoDup (vpas st').
Proof.
  intros Hp Hs Hf Hn Hh (_ & _ & _ & Hsort & _)%on_generate_run.
  unfold generated in Hsort. rewrite decorated_numbers_plain, Hf in Hsort by done.
  apply sort_vpas_perm in Hsort.
  assert (Hv : all_valid (valid_summary (phone_numbers i))).
  { apply Forall_forall. intros n Hx. by apply list_elem_of_filter in Hx as [? _]. }
  pose proof (generate_vpas_default_NoDup _ _ Hv Hn Hh) as Hnd.
  assert (Hperm : vpas st'
    ≡ₚ generate_vpas (valid_summary (phone_numbers i)) (selected_handles i) None).
  { rewrite Hsort. destruct (remove_duplicates i); [by apply list_set_perm|done]. }
  split.
  - by rewrite Hperm, (generate_vpas_length _ _ _ Hv).
  - by rewrite Hperm.
Qed.

Lemma on_generate_distinct_witness :
  exists st',
    on_generate two_at_inputs empty_session = Some (st', [])
    /\ length (vpas st') = (1 * 2)%nat.
Proof.
  assert (E : exists st', on_generate two_at_inputs empty_session = Some (st', [])).
  { eexists. vm_compute. reflexivity. }
  destruct E as (st' & E). exists st'. split; [exact E|].
  apply (on_generate_distinct two_at_inputs empty_session st');
    try reflexivity; try exact E;
    apply (bool_decide_unpack _); vm_compute; exact I.
Defined.

(** ** The results shown *)

Lemma table_rows_loop vpas : forall acc,
  exists rows,
    fold_left
      (fun df_data vpa =>
         df ← df_data;
         if contains at_sign vpa then
           let parts := split at_sign vpa in
           p0 ← parts !! 0%nat; p1 ← parts !! 1%nat;
           Some (df ++ [ {| row_phone_number := p0; row_upi_handle := p1;
                            row_full_vpa := vpa |} ])
         else Some df) vpas (Some acc) = Some (acc ++ rows)
    /\ map row_full_vpa rows = filter (fun x => contains at_sign x = true) vpas
    /\ Forall (fun row =>
         exists rest, split at_sign (row_full_vpa row)
                      = row_phone_number row :: row_upi_handle row :: rest) rows.
Proof.
  induction vpas as [|x vpas IH]; intros acc.
  - exists []. by rewrite app_nil_r.
  - rewrite filter_cons. cbn [fold_left]. cbn beta.
    change (Some acc ≫= _) with
      (if contains at_sign x then
         let parts := split at_sign x in
         p0 ← parts !! 0%nat; p1 ← parts !! 1%nat;
         Some (acc ++ [ {| row_phone_number := p0; row_upi_handle := p1;
                           row_full_vpa := x |} ])
       else Some acc).
    destruct (contains at_sign x) eqn:Hx.
    + destruct (contains_split _ _ Hx) as (p & q & ps & E).
      destruct (IH (acc ++ [{| row_phone_number := p; row_upi_handle := q;
                               row_full_vpa := x |}])) as (rows & Hr & Hm & Hall).
      exists ({| row_phone_number := p; row_upi_handle := q;
                 row_full_vpa := x |} :: rows).
      split; [|rewrite decide_True by done; split;
                [simpl; by rewrite Hm|constructor; [by exists ps|done]]].
      rewrite <- app_assoc in Hr. cbn [app] in Hr. rewrite <- Hr.
      f_equal. cbn zeta. by rewrite E.
    + destruct (IH acc) as (rows & Hr & Hm & Hall). exists rows.
      split; [exact Hr|]. by rewrite decide_False.
Qed.

(** X17.  The table view never fails.  It has one row per identifier with
    an ['@'], in the order of the identifiers, and none for the others; a
    row shows the identifier, what stands before its first ['@'] as the
    phone number and what stands between its first and its second ['@'] (or
    the end) as the handle. *)
Theorem table_rows_spec (vpas : list str) :
  exists rows,
    table_rows vpas = Some rows
    /\ map row_full_vpa rows = filter (fun x => contains at_sign x = true) vpas
    /\ Forall (fun row =>
         exists rest, split at_sign (row_full_vpa row)
                      = row_phone_number row :: row_upi_handle row :: rest) rows.
Proof.
  unfold table_rows. destruct (table_rows_loop vpas []) as (rows & E & Hm & Hall).
  exists rows. split; [exact E|done].
Qed.

Lemma flat_map_pairs {A B C} (f : A -> B -> C) (l1 : list A) (l2 : list B) :
  flat_map (fun a => map (f a) l2) l1
  = map (fun p => f (fst p) (snd p)) (flat_map (fun a => map (pair a) l2) l1).
Proof.
  induction l1 as [|a l1 IH]; [done|].
  simpl. by rewrite map_app, map_map, IH.
Qed.

(** X18.  For the identifiers generated with the default template from
    valid numbers and handles without ['@'], the table has one row per
    identifier, in the same order, and the row shows the number and the
    handle that the identifier was built from. *)
Theorem table_rows_generated (ns hs : list str) :
  all_valid ns ->
  Forall (fun h => contains at_sign h = false) hs ->
  table_rows (generate_vpas ns hs None)
  = Some (flat_map
            (fun n => map (fun h => {| row_phone_number := n; row_upi_handle := h;
                                       row_full_vpa := n ++ at_sign :: h |}) hs) ns).
Proof.
  intros Hv Hh.
  rewrite (generate_vpas_valid ns hs None (fun n h => n ++ at_sign :: h)) by done.
  unfold table_rows.
  assert (Hloop : forall l acc,
    Forall (fun p => contains at_sign (fst p) = false
                     /\ contains at_sign (snd p) = false) l ->
    fold_left
      (fun df_data vpa =>
         df ← df_data;
         if contains at_sign vpa then
           let parts := split at_sign vpa in
           p0 ← parts !! 0%nat; p1 ← parts !! 1%nat;
           Some (df ++ [ {| row_phone_number := p0; row_upi_handle := p1;
                            row_full_vpa := vpa |} ])
         else Some df)
      (map (fun p => fst p ++ at_sign :: snd p) l) (Some acc)
    = Some (acc ++ map (fun p => {| row_phone_number := fst p;
                                    row_upi_handle := snd p;
                                    row_full_vpa := fst p ++ at_sign :: snd p |}) l)).
  { induction l as [|[n h] l IH]; intros acc Hl.
    - by rewrite app_nil_r.
    - inversion Hl as [|? ? [Hn Hh'] Hl']; subst. simpl in Hn, Hh'.
      cbn [map fold_left fst snd mbind option_bind].
      rewrite contains_app_sep, split_app_sep, (split_no_sep _ h) by done.
      cbn [lookup list_lookup mbind option_bind].
      rewrite IH by done. by rewrite <- app_assoc. }
  rewrite (flat_map_pairs (fun n h => n ++ at_sign :: h)).
  rewrite (flat_map_pairs (fun n h => {| row_phone_number := n; row_upi_handle := h;
                                         row_full_vpa := n ++ at_sign :: h |})).
  rewrite Hloop; [done|].
  clear -Hv Hh. induction Hv as [|n ns Hn _ IH]; [constructor|].
  simpl. apply Forall_app. split; [|done].
  apply Forall_fmap. eapply Forall_impl; [exact Hh|]. intros h Hh'. simpl.
  split; [by apply valid_no_at|done].
Qed.

Lemma table_rows_generated_witness :
  table_rows (generate_vpas [u "9876543210"] [u "paytm"] None)
  = Some [ {| row_phone_number := u "9876543210"; row_upi_handle := u "paytm";
              row_full_vpa := u "9876543210@paytm" |} ].
Proof.
  apply (table_rows_generated [u "9876543210"] [u "paytm"]); by repeat constructor.
Defined.

(** X19.  The text download can be read back line by line: for a list of
    identifiers that is not empty and has no line break in any identifier,
    splitting the text at the line breaks gives the identifiers back, in
    order.  (The empty list is written as the empty text, which reads back
    as one empty line.) *)
Theorem txt_data_round_trip (vpas : list str) :
  vpas <> [] ->
  Forall (fun x => contains 10 x = false) vpas ->
  split 10 (txt_data vpas) = vpas.
Proof.
  intros Hne Hall. unfold txt_data.
  induction Hall as [|x l Hx Hl IH]; [done|].
  destruct l as [|y l].
  - simpl. by apply split_no_sep.
  - change (Json.join [10] (x :: y :: l)) with (x ++ [10] ++ Json.join [10] (y :: l)).
    cbn [app]. rewrite split_app_sep by done. f_equal. by apply IH.
Qed.

Lemma txt_data_round_trip_witness :
  split 10 (txt_data [u "9876543210@paytm"; u "9876543210@ybl"])
  = [u "9876543210@paytm"; u "9876543210@ybl"]
  /\ split 10 (txt_data []) = [[]].
Proof.
  split; [|reflexivity].
  apply txt_data_round_trip; [discriminate|by repeat constructor].
Defined.

(** ** The range generator *)

(** A digit is no whitespace, no sign and no underscore. *)
Lemma isdigit_char_plain c :
  isdigit_char c = true ->
  isspace_char c = false /\ c <> 95 /\ c <> 45 /\ c <> 43.
Proof.
  unfold isdigit_char.
  cbn [existsb decimal_zeros other_digit_ranges fst snd].
  intros H.
  repeat match type of H with
         | (_ || _) = true => apply orb_true_iff in H; destruct H as [H|H]
         end;
    try discriminate H;
    unfold in_range in H; unfold isspace_char, in_range; clear -H; lia.
Qed.

Lemma isspace_char_plain c :
  isspace_char c = true -> c <> 95 /\ c <> 45 /\ c <> 43.
Proof. unfold isspace_char, in_range. lia. Qed.

Lemma int_space_isspace c : int_space c = true -> isspace_char c = true.
Proof.
  unfold int_space, isspace_char, in_range.
  destruct (c <? 127) eqn:E; [lia|done].
Qed.

Lemma decimal_value_isdigit c :
  decimal_value c <> None -> isdigit_char c = true.
Proof.
  unfold decimal_value, isdigit_char. intros H.
  apply orb_true_iff. left. revert H.
  generalize decimal_zeros. intros zs.
  induction zs as [|z zs IH]; [done|].
  simpl. destruct (in_range z (z + 9) c); [done|]. exact IH.
Qed.

Lemma decimal_value_ascii c :
  ascii_digit c = true -> decimal_value c = Some (c - 48).
Proof.
  unfold ascii_digit, decimal_value. cbn [decimal_zeros].
  change (0x30 + 9) with 57. change 0x30 with 48. by intros ->.
Qed.

(** Where [int] and [str.strip] see the same whitespace, they trim alike. *)
Lemma int_lstrip_lstrip s :
  Forall (fun c => int_space c = isspace_char c) s -> int_lstrip s = lstrip s.
Proof.
  induction 1 as [|c s Hc _ IH]; [done|].
  simpl. by rewrite Hc, IH.
Qed.

Lemma int_rstrip_rstrip s :
  Forall (fun c => int_space c = isspace_char c) s -> int_rstrip s = rstrip s.
Proof.
  induction 1 as [|c s Hc _ IH]; [done|].
  simpl. by rewrite Hc, IH.
Qed.

Lemma int_strip_strip s :
  Forall (fun c => int_space c = isspace_char c) s ->
  int_rstrip (int_lstrip s) = strip s.
Proof.
  intros H. rewrite int_lstrip_lstrip by done. apply int_rstrip_rstrip.
  rewrite Forall_forall in H. apply Forall_forall. intros c Hc. apply H.
  eapply elem_of_sublist; [exact Hc|apply lstrip_sublist].
Qed.

(** What [int] does not skip stays. *)
Lemma elem_of_int_lstrip x s :
  x ∈ s -> int_space x = false -> x ∈ int_lstrip s.
Proof.
  intros Hx Hs. induction s as [|c s IH]; [done|].
  simpl. destruct (int_space c) eqn:Hc; [|done].
  apply elem_of_cons in Hx as [->|Hx]; [congruence|by apply IH].
Qed.

Lemma elem_of_int_rstrip x s :
  x ∈ s -> int_space x = false -> x ∈ int_rstrip s.
Proof.
  intros Hx Hs. induction s as [|c s IH]; [done|].
  simpl. apply elem_of_cons in Hx as [->|Hx].
  - rewrite Hs. destruct (int_rstrip s); apply elem_of_cons; by left.
  - specialize (IH Hx). destruct (int_rstrip s); [by inversion IH|].
    apply elem_of_cons. by right.
Qed.

Lemma int_lstrip_sublist s : int_lstrip s `sublist_of` s.
Proof.
  induction s as [|c s IH]; simpl; [done|].
  destruct (int_space c); [by apply sublist_cons|done].
Qed.

Lemma int_rstrip_sublist s : int_rstrip s `sublist_of` s.
Proof.
  induction s as [|c s IH]; simpl; [done|].
  destruct (int_rstrip s) eqn:E.
  - destruct (int_space c).
    + by apply sublist_cons.
    + by apply sublist_skip.
  - by apply sublist_skip.
Qed.

(** The digits of an integer literal without underscores. *)
Lemma int_digits_None acc b s :
  Forall (fun c => c <> 95) s ->
  Exists (fun c => decimal_value c = None) s ->
  int_digits acc b s = None.
Proof.
  intros Hu Hx. revert acc b.
  induction Hu as [|c s Hc Hu IH]; intros acc b; [by inversion Hx|].
  simpl. apply N.eqb_neq in Hc. rewrite Hc.
  destruct (decimal_value c) as [d|] eqn:Hd; [|done].
  apply IH. inversion Hx; subst; [congruence|done].
Qed.

Lemma int_digits_Some acc b s :
  Forall (fun c => decimal_value c <> None) s ->
  s <> [] \/ b = true ->
  exists n, int_digits acc b s = Some n.
Proof.
  intros Hd. revert acc b.
  induction Hd as [|c s Hc Hd IH]; intros acc b Hs.
  - destruct Hs as [Hs| ->]; [done|]. by exists acc.
  - simpl. pose proof (decimal_value_isdigit c Hc) as (_ & Hu & _)%isdigit_char_plain.
    apply N.eqb_neq in Hu. rewrite Hu.
    destruct (decimal_value c) as [d|]; [|done].
    apply IH. by right.
Qed.

Lemma digit_or_space_plain c :
  digit_or_space c = true -> c <> 95 /\ c <> 45 /\ c <> 43.
Proof.
  unfold digit_or_space. intros [H|H]%orb_true_iff.
  - by apply isdigit_char_plain in H as (_ & ? & ? & ?).
  - by apply isspace_char_plain.
Qed.

Lemma int_raises start :
  validate_phone_number start = true ->
  Exists (fun c => int_space c = false /\ decimal_value c = None) start ->
  int start = None.
Proof.
  intros [_ Hall]%valid_digit_or_space (x & Hx & Hs & Hd)%Exists_exists.
  unfold int.
  assert (Hsub : int_rstrip (int_lstrip start) `sublist_of` start)
    by (etrans; [apply int_rstrip_sublist|apply int_lstrip_sublist]).
  assert (Hin : x ∈ int_rstrip (int_lstrip start))
    by (by apply elem_of_int_rstrip; [apply elem_of_int_lstrip|]).
  assert (Ht : Forall (fun c => c <> 95 /\ c <> 45 /\ c <> 43)
                 (int_rstrip (int_lstrip start))).
  { rewrite Forall_forall in Hall. apply Forall_forall. intros c Hc.
    apply digit_or_space_plain, Hall. eapply elem_of_sublist; [exact Hc|exact Hsub]. }
  destruct (int_rstrip (int_lstrip start)) as [|c r]; [done|].
  pose proof (Forall_inv Ht) as (_ & H45 & H43).
  apply N.eqb_neq in H45, H43. rewrite H45, H43.
  rewrite int_digits_None; [done| |].
  - eapply Forall_impl; [exact Ht|]. by intros ? (? & _).
  - apply Exists_exists. by exists x.
Qed.

Lemma int_runs start :
  validate_phone_number start = true ->
  Forall (fun c => int_space c = true \/ decimal_value c <> None) start ->
  exists n, int start = Some (Z.of_N n).
Proof.
  intros [Hl Hd]%validate_phone_number_iff Hall. unfold int.
  assert (Hagree : Forall (fun c => int_space c = isspace_char c) start).
  { eapply Forall_impl; [exact Hall|]. intros c [Hc|Hc].
    - by rewrite Hc, (int_space_isspace c Hc).
    - apply decimal_value_isdigit, isdigit_char_plain in Hc as (Hc & _).
      rewrite Hc. destruct (int_space c) eqn:E; [|done].
      apply int_space_isspace in E. congruence. }
  rewrite int_strip_strip by done.
  assert (Hdec : Forall (fun c => decimal_value c <> None) (strip start)).
  { rewrite Forall_forall in Hall, Hd. apply Forall_forall. intros c Hc.
    assert (Hin : c ∈ start)
      by (eapply elem_of_sublist; [exact Hc|apply strip_sublist]).
    destruct (Hall c Hin) as [Hs|Hs]; [|done].
    apply Hd, isdigit_char_plain in Hc as (Hc & _).
    apply int_space_isspace in Hs. congruence. }
  destruct (strip start) as [|c r]; [done|].
  pose proof (Forall_inv Hd) as (_ & _ & H45 & H43)%isdigit_char_plain.
  apply N.eqb_neq in H45, H43. rewrite H45, H43.
  destruct (int_digits_Some 0 false (c :: r) Hdec) as (n & ->); [by left|].
  by exists n.
Qed.

(** X20.  A start number that the validator accepts can still make the
    range generator fail: [int] raises exactly when the start number has a
    character that [int] neither skips as whitespace nor reads as a decimal
    digit.  Such characters get past the validator as digits that are no
    decimal digits (the superscript two) or as whitespace of [str.strip]
    that [int] does not skip (U+001C..U+001F). *)
Theorem range_numbers_raises (start_num : str) (count : nat) :
  validate_phone_number start_num = true ->
  range_numbers start_num count = None
  <-> Exists (fun c => int_space c = false /\ decimal_value c = None) start_num.
Proof.
  intros Hv. unfold range_numbers. rewrite Hv. split.
  - intros H.
    destruct (decide (Exists (fun c => int_space c = false /\ decimal_value c = None)
                        start_num)) as [|Hn]; [done|].
    apply not_Exists_Forall in Hn; [|intros c; apply _].
    destruct (int_runs start_num Hv) as (n & Hi).
    + eapply Forall_impl; [exact Hn|]. intros c Hc. simpl in Hc.
      destruct (int_space c); [by left|]. right. intros E. by apply Hc.
    + by rewrite Hi in H.
  - intros H. by rewrite (int_raises start_num Hv H).
Qed.

Lemma range_numbers_raises_witness :
  range_numbers superscript_twos 10 = None
  /\ range_numbers (28 :: u "9000000000") 10 = None
  /\ range_numbers (u "9000000000") 10 <> None.
Proof.
  split; [|split].
  - apply (range_numbers_raises superscript_twos 10); [reflexivity|].
    apply Exists_cons_hd. by vm_compute.
  - apply (range_numbers_raises (28 :: u "9000000000") 10); [reflexivity|].
    apply Exists_cons_hd. by vm_compute.
  - by vm_compute.
Defined.

(** Reading back what [str] writes. *)
Lemma digits_ascii d : Forall (fun c => ascii_digit c = true) (digits d).
Proof. induction d; simpl; by constructor. Qed.

Lemma int_digits_ascii acc b c r :
  ascii_digit c = true ->
  int_digits acc b (c :: r) = int_digits (acc * 10 + (c - 48)) true r.
Proof.
  intros Hc. cbn [int_digits]. rewrite (decimal_value_ascii c Hc).
  pose proof (ascii_digit_isdigit c Hc) as (_ & Hu & _)%isdigit_char_plain.
  apply N.eqb_neq in Hu. by rewrite Hu.
Qed.

Lemma int_digits_digits d acc :
  int_digits (Npos acc) true (digits d) = Some (Npos (Pos.of_uint_acc d acc)).
Proof.
  revert acc. induction d; intros acc; [done|..];
    cbn [digits]; rewrite int_digits_ascii by done;
    cbn [Pos.of_uint_acc]; rewrite <- IHd; f_equal; lia.
Qed.

Lemma int_digits_to_uint p b :
  int_digits 0 b (digits (Pos.to_uint p)) = Some (Npos p).
Proof.
  pose proof (DecimalPos.Unsigned.of_to p) as Hp.
  pose proof (to_uint_not_D0 p) as H0.
  pose proof (DecimalPos.Unsigned.to_uint_nonnil p) as Hnil.
  destruct (Pos.to_uint p) as [|d|d|d|d|d|d|d|d|d|d]; try done;
    try (by specialize (H0 d));
    cbn [digits]; rewrite int_digits_ascii by done;
    cbn [Pos.of_uint] in Hp; rewrite <- Hp; apply int_digits_digits.
Qed.

Lemma int_digits_repr_int n b :
  int_digits 0 b (repr_int (Z.of_N n)) = Some n.
Proof.
  destruct n as [|p]; [done|]. apply int_digits_to_uint.
Qed.

Lemma int_digits_zeros k b r :
  int_digits 0 b (replicate k 48 ++ r)
  = int_digits 0 (match k with O => b | S _ => true end) r.
Proof.
  revert b. induction k as [|k IH]; intros b; [done|].
  cbn [replicate app]. rewrite int_digits_ascii by done.
  change (0 * 10 + (48 - 48)) with 0. rewrite IH. by destruct k.
Qed.

Lemma ascii_digit_plain c :
  ascii_digit c = true -> int_space c = false /\ isspace_char c = false.
Proof.
  intros Hc. apply ascii_digit_isdigit, isdigit_char_plain in Hc as (Hc & _).
  split; [|done]. destruct (int_space c) eqn:E; [|done].
  apply int_space_isspace in E. congruence.
Qed.

Lemma int_lstrip_id s : Forall (fun c => int_space c = false) s -> int_lstrip s = s.
Proof. intros H. destruct H as [|c s Hc _]; [done|]. simpl. by rewrite Hc. Qed.

Lemma int_rstrip_id s : Forall (fun c => int_space c = false) s -> int_rstrip s = s.
Proof.
  induction 1 as [|c s Hc _ IH]; [done|].
  simpl. rewrite IH, Hc. by destruct s.
Qed.

Lemma lstrip_id s : Forall (fun c => isspace_char c = false) s -> lstrip s = s.
Proof. intros H. destruct H as [|c s Hc _]; [done|]. simpl. by rewrite Hc. Qed.

Lemma rstrip_id s : Forall (fun c => isspace_char c = false) s -> rstrip s = s.
Proof.
  induction 1 as [|c s Hc _ IH]; [done|].
  simpl. rewrite IH, Hc. by destruct s.
Qed.

Lemma strip_ascii s : Forall (fun c => ascii_digit c = true) s -> strip s = s.
Proof.
  intros H. unfold strip.
  assert (Hs : Forall (fun c => isspace_char c = false) s)
    by (eapply Forall_impl; [exact H|]; intros c Hc; by apply ascii_digit_plain).
  by rewrite lstrip_id, rstrip_id.
Qed.

Lemma int_ascii s :
  Forall (fun c => ascii_digit c = true) s ->
  int s = n ← int_digits 0 false s; Some (Z.of_N n).
Proof.
  intros H. unfold int.
  assert (Hs : Forall (fun c => int_space c = false) s)
    by (eapply Forall_impl; [exact H|]; intros c Hc; by apply ascii_digit_plain).
  rewrite int_lstrip_id, int_rstrip_id by done.
  destruct H as [|c r Hc _]; [done|].
  pose proof (ascii_digit_isdigit c Hc) as (_ & _ & H45 & H43)%isdigit_char_plain.
  apply N.eqb_neq in H45, H43. by rewrite H45, H43.
Qed.

(** [int(str(z)) == z] *)
Lemma int_repr_int z : int (repr_int z) = Some z.
Proof.
  destruct z as [|p|p]; [done| |].
  - rewrite int_ascii by apply digits_ascii.
    cbn [repr_int]. by rewrite int_digits_to_uint.
  - unfold int. cbn [repr_int].
    assert (Hs : Forall (fun c => int_space c = false) (45 :: digits (Pos.to_uint p))).
    { constructor; [done|]. eapply Forall_impl; [apply digits_ascii|].
      intros c Hc. by apply ascii_digit_plain. }
    rewrite int_lstrip_id, int_rstrip_id by done.
    change (45 =? 45) with true. cbv iota. by rewrite int_digits_to_uint.
Qed.

(** X21.  From a start number of ten characters ['0'..'9'], the zeros at
    its head included, the range generator gives [count] numbers: the
    number that the start number writes and the ones that follow it, each
    written without zeros at its head. *)
Theorem range_numbers_spec (start_num : str) (count k : nat) (base : Z) :
  (0 <= base)%Z ->
  start_num = replicate k 48 ++ repr_int base ->
  length start_num = 10%nat ->
  range_numbers start_num count
  = Some (map (fun i => repr_int (base + Z.of_nat i)) (seq 0 count)).
Proof.
  intros Hb -> Hl.
  assert (Hd : Forall (fun c => ascii_digit c = true) (replicate k 48 ++ repr_int base)).
  { apply Forall_app. split; [by apply Forall_replicate|].
    destruct base as [|p|p]; [by repeat constructor|apply digits_ascii|lia]. }
  unfold range_numbers. rewrite ten_ascii_digits_valid.
  - rewrite int_ascii, int_digits_zeros by done.
    rewrite <- (Z2N.id base Hb) at 1. rewrite int_digits_repr_int.
    cbn [mbind option_bind]. by rewrite Z2N.id.
  - unfold ten_ascii_digits, len. rewrite strip_ascii, Hl by done.
    by apply forallb_forall, List.Forall_forall.
Qed.

Lemma range_numbers_spec_witness :
  range_numbers (u "0999999999") 2 = Some [u "999999999"; u "1000000000"].
Proof.
  apply (range_numbers_spec (u "0999999999") 2 1 999999999); [lia|reflexivity..].
Defined.





(** ** The other runs of the handler *)

Lemma on_generate_decorated_witness :
  exists st', on_generate decorated_inputs empty_session = Some (st', [])
              /\ vpas st' = [].
Proof.
  apply (on_generate_decorated decorated_inputs empty_session);
    [discriminate|discriminate|left; reflexivity].
Defined.

(** X24.  "By UPI Handle" never fails; it returns the same identifiers in
    ascending order of the key, identifiers with the same key staying in the
    order they had; for every identifier built with the default template
    from a valid number and a handle without ['@'] the key is the handle. *)
Theorem sort_by_handle_generated (l : list str) :
  (exists l',
     sort_vpas ByHandle l = Some l'
     /\ l' ≡ₚ l
     /\ StronglySorted
          (fun a b => forall ka kb,
             handle_key a = Some ka -> handle_key b = Some kb -> ltb kb ka = false) l'
     /\ forall k, filter (fun a => handle_key a = Some k) l'
                  = filter (fun a => handle_key a = Some k) l)
  /\ forall n h, validate_phone_number n = true -> contains at_sign h = false ->
       handle_key (format_vpa None n h) = Some h.
Proof.
  split.
  - destruct (sort_vpas_total ByHandle l) as [l' E]. exists l'.
    split; [done|]. by apply (list_sort_spec ltb ltb_asym ltb_cotrans) in E.
  - intros n h Hn Hh. rewrite format_vpa_default.
    destruct (handle_key_app n h (valid_no_at n Hn)) as [-> _].
    by rewrite split_no_sep.
Qed.

Lemma sort_by_handle_generated_witness :
  handle_key (format_vpa None (u "9876543210") (u "paytm")) = Some (u "paytm").
Proof.
  apply (proj2 (sort_by_handle_generated [])); reflexivity.
Defined.
